(** * Agent loop of ai-calendar-pro: src/backend/langgraph_agent.py

    A shallow embedding of the LangGraph calendar agent: the argument
    normalisation and name aliasing of [mcp_calendar_tool], the MCP server's
    [/mcp/call] dispatch ([call_tool] in mcp_calendar_server.py), the two graph
    nodes [run_llm] and [execute_tools], the routing function
    [should_continue], the [operator.add] reducer of [AgentState] and the
    [/chat] endpoint [chat_with_agent].

    Python exceptions are modelled by the small error monad [Exc]; the
    language model and the network are parameters of the definitions. *)

From Stdlib Require Import String Ascii List ZArith Lia Bool.
Import ListNotations.
Open Scope string_scope.
Set Warnings "-register-all".

(** ** Python values *)

(** JSON-like Python values as they flow through the agent. A Python dict is
    an association list (insertion order kept, lookup finds the first key).
    A Python [str] is a [string] of the same characters: texts are taken to
    be ASCII, one character per code point. *)
Inductive val : Type :=
| VNone
| VBool (b : bool)
| VInt (z : Z)
| VStr (s : string)
| VList (l : list val)
| VDict (d : list (string * val)).

Definition dict := list (string * val).

(** [d[k]] / [d.get(k)] *)
Fixpoint lookup (k : string) (d : dict) : option val :=
  match d with
  | [] => None
  | (k', v) :: d' => if String.eqb k k' then Some v else lookup k d'
  end.

(** A double-quote character, used to build JSON texts. *)
Definition dq : string := String (ascii_of_nat 34) EmptyString.

(** [str(n)] for a non-negative integer. *)
Fixpoint digits_of (fuel n : nat) (acc : string) : string :=
  match fuel with
  | 0 => acc
  | S f =>
      let d := String (ascii_of_nat (48 + n mod 10)) EmptyString in
      if Nat.ltb n 10 then d ++ acc else digits_of f (n / 10) (d ++ acc)
  end.

Definition z_to_string (z : Z) : string :=
  if (z <? 0)%Z then "-" ++ digits_of 64 (Z.to_nat (- z)) ""
  else digits_of 64 (Z.to_nat z) "".

(** [text[:n]] *)
Definition str_prefix (n : nat) (s : string) : string := substring 0 n s.

(** ** Python exceptions and the error monad *)

Inductive pyexc : Type :=
| RequestException (msg : string)   (** requests.RequestException *)
| ValueError (msg : string)
| ValidationError (msg : string)    (** pydantic validation *)
| IndexError                        (** [messages[-1]] on an empty list *)
| ConnectionError (msg : string)    (** model backend unreachable *)
| GraphRecursionError (msg : string) (** LangGraph step budget exhausted *)
| OtherError (msg : string).

(** [str(e)] *)
Definition exc_str (e : pyexc) : string :=
  match e with
  | RequestException m | ValueError m | ValidationError m
  | ConnectionError m | GraphRecursionError m | OtherError m => m
  | IndexError => "list index out of range"
  end.

(** [except ValueError]: pydantic's [ValidationError] is a subclass of
    [ValueError]. *)
Definition is_value_error (e : pyexc) : bool :=
  match e with
  | ValueError _ | ValidationError _ => true
  | _ => false
  end.

Inductive Exc (A : Type) : Type :=
| Ret (a : A)
| Raise (e : pyexc).
Arguments Ret {A} a.
Arguments Raise {A} e.

Definition bind {A B} (m : Exc A) (k : A -> Exc B) : Exc B :=
  match m with
  | Ret a => k a
  | Raise e => Raise e
  end.

Notation "x <- m ;; k" := (bind m (fun x => k))
  (at level 61, m at next level, right associativity).

(** ** What depends on the installed libraries

    The repository pins no version of LangChain, LangGraph or pydantic. The
    texts of the exceptions they raise and LangGraph's default step limit
    change between versions, so they are parameters of the model: the
    statements below hold for every choice. *)
Class Libraries : Type := {
  (** [str(e)] of the pydantic [ValidationError] raised when the argument
      schema of [mcp_calendar_tool] refuses [args]. *)
  tool_args_error_text : list (string * val) -> string;
  (** [str(e)] of the [ValidationError] of
      [ToolMessage(content=..., tool_call_id=None)]. *)
  tool_call_id_error_text : string;
  (** [str(e)] of LangGraph's [GraphRecursionError]. *)
  recursion_error_text : string;
  (** The ticks [graph.invoke] runs without a config before it raises
      [GraphRecursionError]: each tick first checks the limit, then stops at
      [END] or runs one node. LangGraph refuses a limit below 1. *)
  RECURSION_LIMIT : nat;
  RECURSION_LIMIT_pos : 0 < RECURSION_LIMIT
}.

(** ** Argument normalisation (mcp_calendar_tool, step 1)

<<
    if "kwargs" in kwargs and isinstance(kwargs["kwargs"], dict):
        params = kwargs["kwargs"]
    else:
        params = dict(kwargs)
>> *)
Definition normalize (kwargs : dict) : dict :=
  match lookup "kwargs" kwargs with
  | Some (VDict inner) => inner
  | _ => kwargs
  end.

(** ** Name aliasing (mcp_calendar_tool, step 2) *)
Definition TOOL_NAME_MAP : list (string * string) :=
  [ ("create_calendar_event_tool", "calendar_create_event");
    ("send_calendar_reminder_tool", "calendar_send_reminder");
    ("sync_google_calendar_tool", "calendar_sync_google");
    ("import_google_calendar_tool", "calendar_import_google");
    ("calendar_create_event", "calendar_create_event");
    ("calendar_send_reminder", "calendar_send_reminder");
    ("calendar_sync_google", "calendar_sync_google");
    ("calendar_import_google", "calendar_import_google") ].

(** [TOOL_NAME_MAP.get(tool_name, tool_name)] *)
Fixpoint map_get (k : string) (m : list (string * string)) (dflt : string) : string :=
  match m with
  | [] => dflt
  | (k', v) :: m' => if String.eqb k k' then v else map_get k m' dflt
  end.

Definition resolve_tool_id (tool_name : string) : string :=
  map_get tool_name TOOL_NAME_MAP tool_name.

(** ** The HTTP call to the MCP server (mcp_calendar_tool, step 3) *)

(** What [requests.post(f"{MCP_SERVER_URL}/mcp/call", json=..., timeout=15)]
    gives back: either it raises, or a response with its status code, its
    text and what [resp.json()] gives: the decoded body, or the exception
    it raises (a [ValueError] for a body that is not JSON, another one such
    as a [RecursionError] for a too deeply nested body). *)
Inductive post_outcome : Type :=
| PostRaised (e : pyexc)
| PostResp (status : Z) (text : string) (json : Exc val).

(** [{"success": False, "error": msg}] *)
Definition failure (msg : string) : val :=
  VDict [("success", VBool false); ("error", VStr msg)].

(** [resp.ok]: [raise_for_status()] raises exactly for the statuses 400 to
    599. *)
Definition resp_ok (status : Z) : bool := negb ((400 <=? status) && (status <? 600))%Z.

Section Tool.
Context {L : Libraries}.
(** The network: the body [{"tool": id, "parameters": params}] posted to
    [/mcp/call]. *)
Variable post : string -> dict -> post_outcome.

Definition mcp_calendar_tool (tool_name : string) (kwargs : dict) : Exc val :=
  let params := normalize kwargs in
  let mcp_tool_id := resolve_tool_id tool_name in
  match post mcp_tool_id params with
  | PostRaised (RequestException m) =>
      Ret (failure ("Error communicating with MCP Server: " ++ m))
  | PostRaised e => Raise e
  | PostResp status text json =>
      if negb (resp_ok status) then
        Ret (failure ("MCP server returned " ++ z_to_string status ++ ": " ++ text))
      else match json with
           | Ret data => Ret data
           | Raise e =>
               if is_value_error e then
                 Ret (failure ("MCP server returned non-JSON response: "
                                 ++ str_prefix 200 text))
               else Raise e
           end
  end.

(** [mcp_calendar_tool.invoke(args)]. The [@tool] decorator infers the
    argument schema from the signature [(tool_name: str, **kwargs)]: a
    field [tool_name: str] and a field [kwargs: dict | None] (default
    [None]); other keys of [args] are ignored. pydantic 2 (lax mode) accepts
    only a [str] for the first and [None] or a [dict] for the second. The
    validated fields present in [args] become the keyword arguments of the
    call, so the function's [**kwargs] is [{}] or [{"kwargs": v}]. *)
Definition tool_args_valid (args : dict) : bool :=
  match lookup "tool_name" args with Some (VStr _) => true | _ => false end &&
  match lookup "kwargs" args with None | Some VNone | Some (VDict _) => true | _ => false end.

Definition passed_kwargs (args : dict) : dict :=
  match lookup "kwargs" args with
  | Some v => [("kwargs", v)]
  | None => []
  end.

Definition invoke_tool (args : dict) : Exc val :=
  match lookup "tool_name" args with
  | Some (VStr tn) =>
      if tool_args_valid args then mcp_calendar_tool tn (passed_kwargs args)
      else Raise (ValidationError (tool_args_error_text args))
  | _ => Raise (ValidationError (tool_args_error_text args))
  end.
End Tool.

(** ** The MCP server's [/mcp/call] endpoint (mcp_calendar_server.py, call_tool) *)

(** A one-character string. *)
Definition chr (n : nat) : string := String (ascii_of_nat n) EmptyString.

(** A lowercase hexadecimal digit. *)
Definition hex_digit (n : nat) : string :=
  if Nat.ltb n 10 then chr (48 + n) else chr (87 + n).

(** One character of a JSON string literal as [json.dumps] writes it with
    [ensure_ascii=False]: the quote, the backslash and the control
    characters are escaped, everything else is kept. *)
Definition json_escape_char (c : ascii) : string :=
  let n := nat_of_ascii c in
  if Nat.eqb n 34 then chr 92 ++ chr 34
  else if Nat.eqb n 92 then chr 92 ++ chr 92
  else if Nat.eqb n 10 then chr 92 ++ "n"
  else if Nat.eqb n 13 then chr 92 ++ "r"
  else if Nat.eqb n 9 then chr 92 ++ "t"
  else if Nat.eqb n 8 then chr 92 ++ "b"
  else if Nat.eqb n 12 then chr 92 ++ "f"
  else if Nat.ltb n 32 then chr 92 ++ "u00" ++ hex_digit (n / 16) ++ hex_digit (n mod 16)
  else String c EmptyString.

Fixpoint json_escape (s : string) : string :=
  match s with
  | EmptyString => EmptyString
  | String c s' => json_escape_char c ++ json_escape s'
  end.

(** The body FastAPI sends for [HTTPException(detail=...)]:
    [JSONResponse({"detail": detail})], rendered by [json.dumps] with
    [ensure_ascii=False] and [separators=(",", ":")]. *)
Definition http_error_text (detail : string) : string :=
  "{" ++ dq ++ "detail" ++ dq ++ ":" ++ dq ++ json_escape detail ++ dq ++ "}".

Definition server_tool_ids : list string :=
  ["calendar_create_event"; "calendar_send_reminder";
   "calendar_sync_google"; "calendar_import_google"].

Section Server.
(** The four tool handlers, reached through the network. *)
Variable known_handler : string -> dict -> post_outcome.

Definition call_tool (tool : string) (params : dict) : post_outcome :=
  if existsb (String.eqb tool) server_tool_ids then known_handler tool params
  else PostResp 400 (http_error_text ("Unknown tool: " ++ tool))
         (Ret (VDict [("detail", VStr ("Unknown tool: " ++ tool))])).
End Server.

(** ** Messages and the conversation state *)

(** A LangChain [ToolCall]: [name], [args] and [id] as read by
    [execute_tools] with [raw_call.get(...)]. *)
Record tool_call : Type := mk_call {
  tc_name : option string;
  tc_args : dict;
  tc_id : option string
}.

Inductive message : Type :=
| HumanMessage (content : string)
| AIMessage (content : string) (tool_calls : list tool_call)
| ToolMessage (content : val) (tool_call_id : string).

(** [getattr(m, "tool_calls", None)], with [None] read as no calls: only an
    [AIMessage] carries the attribute. *)
Definition msg_tool_calls (m : message) : list tool_call :=
  match m with
  | AIMessage _ tcs => tcs
  | _ => []
  end.

(** [messages[-1]] *)
Definition last_message (msgs : list message) : Exc message :=
  match rev msgs with
  | m :: _ => Ret m
  | [] => Raise IndexError
  end.

(** The reducer of [AgentState]:
    [messages: Annotated[List[BaseMessage], operator.add]]. A node's returned
    [messages] are concatenated onto the stored ones. *)
Definition reduce_messages (stored update : list message) : list message :=
  (stored ++ update)%list.

(** ** The tool-execution node [execute_tools] *)

Definition MCP_TOOL_NAME : string := "mcp_calendar_tool".

(** [f"{name}"] for an optional string *)
Definition show_name (name : option string) : string :=
  match name with Some s => s | None => "None" end.

Section Execute.
Context {L : Libraries}.
Variable post : string -> dict -> post_outcome.

(** The output for one tool call:
<<
      if name == mcp_calendar_tool.name:
          try:
              output = mcp_calendar_tool.invoke(args)
          except Exception as e:
              output = {"success": False, "error": f"Error executing mcp_calendar_tool: {e}"}
      else:
          output = {"success": False, "error": f"Unknown tool '{name}' requested."}
>> *)
Definition tool_output (tc : tool_call) : val :=
  match tc_name tc with
  | Some n =>
      if String.eqb n MCP_TOOL_NAME then
        match invoke_tool post (tc_args tc) with
        | Ret out => out
        | Raise e => failure ("Error executing mcp_calendar_tool: " ++ exc_str e)
        end
      else failure ("Unknown tool '" ++ show_name (tc_name tc) ++ "' requested.")
  | None => failure ("Unknown tool '" ++ show_name (tc_name tc) ++ "' requested.")
  end.

(** [ToolMessage(content=output, tool_call_id=tool_call_id)]: pydantic
    refuses a missing [tool_call_id]. *)
Definition exec_call (tc : tool_call) : Exc message :=
  let output := tool_output tc in
  match tc_id tc with
  | Some i => Ret (ToolMessage output i)
  | None => Raise (ValidationError tool_call_id_error_text)
  end.

(** The [for raw_call in iterable] loop, appending to [tool_messages]. *)
Fixpoint exec_calls (calls : list tool_call) : Exc (list message) :=
  match calls with
  | [] => Ret []
  | tc :: rest => m <- exec_call tc ;; ms <- exec_calls rest ;; Ret (m :: ms)
  end.

(** [execute_tools]: the returned [messages] of the node. *)
Definition execute_tools (messages : list message) : Exc (list message) :=
  last <- last_message messages ;;
  match msg_tool_calls last with
  | [] => Ret messages
  | calls => tms <- exec_calls calls ;; Ret (messages ++ tms)%list
  end.
End Execute.

(** ** The decision node [run_llm] and the routing [should_continue] *)

(** The language model behind [prompt | llm_with_tools]: it reads the
    conversation and answers with a text and its tool calls, or raises. *)
Definition decision_provider := list message -> Exc (string * list tool_call).

Definition UNAVAILABLE_TEXT : string :=
  "The AI agent backend is currently unavailable. Please check the Ollama server.".

(** [llm_ok] says whether [llm_with_tools] was initialised at import time. *)
Definition run_llm (llm_ok : bool) (decide : decision_provider)
    (messages : list message) : Exc (list message) :=
  if negb llm_ok then Ret [AIMessage UNAVAILABLE_TEXT []]
  else r <- decide messages ;; Ret [AIMessage (fst r) (snd r)].

(** [should_continue]: [true] is ["continue_to_tools"], [false] is
    ["end_graph"]. *)
Definition should_continue (messages : list message) : Exc bool :=
  last <- last_message messages ;;
  match msg_tool_calls last with
  | [] => Ret false
  | _ => Ret true
  end.

(** ** The compiled graph *)

(** Nodes of the workflow: ["agent"], ["action"] and [END]. *)
Inductive node : Type := Agent | Action | END.

Section Graph.
Context {L : Libraries}.
Variable llm_ok : bool.
Variable decide : decision_provider.
Variable post : string -> dict -> post_outcome.

(** One super-step: run the node, fold its update into the state with the
    reducer, follow the edges ([agent] -> conditional, [action] -> [agent]). *)
Definition graph_step (n : node) (msgs : list message) : Exc (node * list message) :=
  match n with
  | Agent =>
      upd <- run_llm llm_ok decide msgs ;;
      let msgs' := reduce_messages msgs upd in
      go <- should_continue msgs' ;;
      Ret (if go then Action else END, msgs')
  | Action =>
      upd <- execute_tools post msgs ;;
      Ret (Agent, reduce_messages msgs upd)
  | END => Ret (END, msgs)
  end.

(** [graph.invoke] with a budget of ticks: each tick first checks the budget
    (raising [GraphRecursionError] when it is used up), then stops at [END]
    or runs one node. *)
Fixpoint graph_run (budget : nat) (n : node) (msgs : list message) : Exc (list message) :=
  match budget with
  | 0 => Raise (GraphRecursionError recursion_error_text)
  | S b =>
      match n with
      | END => Ret msgs
      | _ => p <- graph_step n msgs ;; graph_run b (fst p) (snd p)
      end
  end.

(** Reachable configurations of one run started from [init]. *)
Inductive reachable (init : list message) : node -> list message -> Prop :=
| reach_init : reachable init Agent init
| reach_step n msgs n' msgs' :
    reachable init n msgs -> graph_step n msgs = Ret (n', msgs') ->
    reachable init n' msgs'.
End Graph.

(** ** The [/chat] endpoint [chat_with_agent] *)

Inductive chat_reply : Type :=
| Response (text : string)              (** [{"response": response_text}] *)
| HTTPError (status : Z) (detail : string).  (** a raised [HTTPException] *)

(** [str(final_message)] for a message that is not an [AIMessage]. *)
Definition message_str (m : message) : string :=
  match m with
  | HumanMessage c => "content='" ++ c ++ "'"
  | AIMessage c _ => "content='" ++ c ++ "'"
  | ToolMessage _ i => "content=... tool_call_id='" ++ i ++ "'"
  end.

Definition response_text (m : message) : string :=
  match m with
  | AIMessage c _ => c
  | _ => message_str m
  end.

(** [graph.invoke] is called without a config: the budget is LangGraph's
    default [RECURSION_LIMIT]. *)
Definition chat_with_agent {L : Libraries} (llm_ok : bool) (decide : decision_provider)
    (post : string -> dict -> post_outcome) (message : string) : chat_reply :=
  if negb llm_ok then
    HTTPError 503 "LLM backend is unavailable. Please ensure Ollama is running."
  else
    match (msgs <- graph_run llm_ok decide post RECURSION_LIMIT Agent
                    (reduce_messages [] [HumanMessage message]) ;;
           final <- last_message msgs ;;
           Ret (response_text final)) with
    | Ret t => Response t
    | Raise e => HTTPError 500 ("AI Agent Error: " ++ exc_str e)
    end.

(** ** Concrete scenarios *)

Module Scenario.
(** Sample values of the library texts and of the step limit, used only to
    evaluate the concrete runs below; the theorems hold for every instance. *)
Definition libs : Libraries := {|
  tool_args_error_text := fun _ => "1 validation error for mcp_calendar_tool";
  tool_call_id_error_text := "1 validation error for ToolMessage";
  recursion_error_text := "Recursion limit of 25 reached without hitting a stop condition.";
  RECURSION_LIMIT := 25;
  RECURSION_LIMIT_pos := Nat.lt_0_succ 24
|}.

(** A reachable MCP server whose handlers all succeed. *)
Definition ok_handler (_ : string) (_ : dict) : post_outcome :=
  PostResp 200 "{}" (Ret (VDict [("success", VBool true)])).

Definition server : string -> dict -> post_outcome := call_tool ok_handler.

Definition call_a : tool_call :=
  mk_call (Some MCP_TOOL_NAME)
    [("tool_name", VStr "create_calendar_event_tool");
     ("kwargs", VDict [("title", VStr "Meeting")])] (Some "a").

Definition call_b : tool_call :=
  mk_call (Some MCP_TOOL_NAME)
    [("tool_name", VStr "send_calendar_reminder_tool")] (Some "b").

(** A model that requests one tool, then another, then answers. *)
Definition two_rounds : decision_provider := fun msgs =>
  match length msgs with
  | 1 => Ret ("", [call_a])
  | 5 => Ret ("", [call_b])
  | _ => Ret ("Scheduled.", [])
  end.

(** A model that requests a tool on every turn. *)
Definition always_tools : decision_provider := fun _ => Ret ("", [call_a]).


Definition seed : list message := [HumanMessage "Schedule a meeting"].



(** [requests.post] raising an exception that is not a
    [RequestException]. *)
Definition broken_post (_ : string) (_ : dict) : post_outcome :=
  PostRaised (OtherError "Object of type bytes is not JSON serializable").

Definition ok_result : val := VDict [("success", VBool true)].

(** The states of the [two_rounds] run, after each node. *)
Definition s_agent1 : list message := (seed ++ [AIMessage "" [call_a]])%list.
Definition s_action1 : list message :=
  (s_agent1 ++ s_agent1 ++ [ToolMessage ok_result "a"])%list.
Definition s_agent2 : list message := (s_action1 ++ [AIMessage "" [call_b]])%list.
Definition s_action2 : list message :=
  (s_agent2 ++ s_agent2 ++ [ToolMessage ok_result "b"])%list.
End Scenario.

(** ** The event store of the MCP server (mcp_calendar_server.py) *)

(** Replies of the server's endpoints: a body, a raised [HTTPException], or
    another exception (answered 500 by FastAPI). *)
Inductive http (A : Type) : Type :=
| HOk (a : A)
| HErr (status : Z) (detail : string)
| HExc (e : pyexc).
Arguments HOk {A} a.
Arguments HErr {A} status detail.
Arguments HExc {A} e.

(** [str.replace(old, new)] for one-character [old]: every occurrence. *)
Fixpoint replace_char (c : ascii) (rep s : string) : string :=
  match s with
  | EmptyString => EmptyString
  | String c' s' =>
      if Ascii.eqb c c' then rep ++ replace_char c rep s'
      else String c' (replace_char c rep s')
  end.

Section Events.
(** The [datetime] values and the two library parsers used by
    [parse_datetime]; both raise [ValueError] on a text they refuse. *)
Variable datetime : Type.
Variable fromisoformat : string -> Exc datetime.
Variable strptime : string -> string -> Exc datetime.

(** [parse_datetime] *)
Definition parse_datetime (dt_str : string) : Exc datetime :=
  match fromisoformat (replace_char "Z"%char "+00:00" dt_str) with
  | Ret d => Ret d
  | Raise _ => strptime dt_str "%Y-%m-%d %H:%M:%S"
  end.

(** The pydantic model [Event]. *)
Record Event : Type := mk_event {
  ev_id : string;
  ev_title : string;
  ev_description : option string;
  ev_start_time : datetime;
  ev_end_time : datetime;
  ev_location : option string;
  ev_attendees : list string;
  ev_color : string;
  ev_created_at : datetime;
  ev_reminder_sent : bool;
  ev_google_event_id : option string;
  ev_notify_attendees : bool
}.

(** The pydantic model [CreateEventRequest] (defaults are filled in by the
    request parser). *)
Record CreateEventRequest : Type := mk_create {
  cr_title : string;
  cr_description : option string;
  cr_start_time : string;
  cr_end_time : string;
  cr_location : option string;
  cr_attendees : list string;
  cr_color : string;
  cr_notify_attendees : bool;
  cr_sync_to_google : bool
}.

(** The pydantic model [UpdateEventRequest]: every field optional. *)
Record UpdateEventRequest : Type := mk_update {
  up_title : option string;
  up_description : option string;
  up_start_time : option string;
  up_end_time : option string;
  up_location : option string;
  up_attendees : option (list string);
  up_color : option string;
  up_notify_attendees : option bool
}.

(** [events_db: Dict[str, Event]]: insertion-ordered. *)
Definition store := list (string * Event).

(** [events_db.get(k)] / [k in events_db] *)
Fixpoint store_get (k : string) (db : store) : option Event :=
  match db with
  | [] => None
  | (k', e) :: db' => if String.eqb k k' then Some e else store_get k db'
  end.

(** [events_db[k] = e]: an existing key keeps its place, a new one goes last. *)
Fixpoint store_set (k : string) (e : Event) (db : store) : store :=
  match db with
  | [] => [(k, e)]
  | (k', e') :: db' =>
      if String.eqb k k' then (k', e) :: db' else (k', e') :: store_set k e db'
  end.

(** [del events_db[k]] *)
Fixpoint store_del (k : string) (db : store) : store :=
  match db with
  | [] => []
  | (k', e') :: db' => if String.eqb k k' then db' else (k', e') :: store_del k db'
  end.

(** A queued [background_tasks.add_task(send_email_notification, event,
    recipient, notification_type)]. *)
Definition task : Type := (Event * string * string)%type.

(** [if event.notify_attendees and event.attendees: for attendee in ...:
    add_task(..., kind)] *)
Definition attendee_tasks (e : Event) (kind : string) : list task :=
  if ev_notify_attendees e && negb (match ev_attendees e with [] => true | _ => false end)
  then map (fun a => (e, a, kind)) (ev_attendees e)
  else [].

Definition with_google_id (e : Event) (g : string) : Event :=
  mk_event (ev_id e) (ev_title e) (ev_description e) (ev_start_time e) (ev_end_time e)
    (ev_location e) (ev_attendees e) (ev_color e) (ev_created_at e) (ev_reminder_sent e)
    (Some g) (ev_notify_attendees e).

(** [sync_to_google_calendar(event)]: the Google id, or [""] when the call
    fails (it catches every exception). *)
Variable sync_to_google_calendar : Event -> string.

(** [POST /events]: [new_id] is [generate_event_id()], [now] the
    [created_at] default. The stored event is the object later given its
    Google id. *)
Definition create_event (new_id : string) (now : datetime) (req : CreateEventRequest)
    (db : store) : store * http (Event * list task) :=
  match parse_datetime (cr_start_time req) with
  | Raise x => (db, HExc x)
  | Ret st =>
  match parse_datetime (cr_end_time req) with
  | Raise x => (db, HExc x)
  | Ret en =>
      let event := mk_event new_id (cr_title req) (cr_description req) st en
                     (cr_location req) (cr_attendees req) (cr_color req) now false None
                     (cr_notify_attendees req) in
      let event' :=
        if cr_sync_to_google req then
          let g := sync_to_google_calendar event in
          if String.eqb g "" then event else with_google_id event g
        else event in
      (store_set new_id event' db, HOk (event', attendee_tasks event' "invitation"))
  end
  end.

(** [GET /events] *)
Definition list_events (db : store) : list Event := map snd db.

(** [GET /events/{event_id}] *)
Definition get_event (event_id : string) (db : store) : http Event :=
  match store_get event_id db with
  | None => HErr 404 "Event not found"
  | Some e => HOk e
  end.

(** The field assignments of [update_event], in the code's order. *)
Definition set_title_desc (req : UpdateEventRequest) (e : Event) : Event :=
  mk_event (ev_id e)
    (match up_title req with Some t => t | None => ev_title e end)
    (match up_description req with Some d => Some d | None => ev_description e end)
    (ev_start_time e) (ev_end_time e) (ev_location e) (ev_attendees e) (ev_color e)
    (ev_created_at e) (ev_reminder_sent e) (ev_google_event_id e) (ev_notify_attendees e).

Definition set_start (d : datetime) (e : Event) : Event :=
  mk_event (ev_id e) (ev_title e) (ev_description e) d (ev_end_time e) (ev_location e)
    (ev_attendees e) (ev_color e) (ev_created_at e) (ev_reminder_sent e)
    (ev_google_event_id e) (ev_notify_attendees e).

Definition set_end (d : datetime) (e : Event) : Event :=
  mk_event (ev_id e) (ev_title e) (ev_description e) (ev_start_time e) d (ev_location e)
    (ev_attendees e) (ev_color e) (ev_created_at e) (ev_reminder_sent e)
    (ev_google_event_id e) (ev_notify_attendees e).

Definition set_rest (req : UpdateEventRequest) (e : Event) : Event :=
  mk_event (ev_id e) (ev_title e) (ev_description e) (ev_start_time e) (ev_end_time e)
    (match up_location req with Some l => Some l | None => ev_location e end)
    (match up_attendees req with Some a => a | None => ev_attendees e end)
    (match up_color req with Some c => c | None => ev_color e end)
    (ev_created_at e) (ev_reminder_sent e) (ev_google_event_id e)
    (match up_notify_attendees req with Some n => n | None => ev_notify_attendees e end).

(** [PUT /events/{event_id}]: the stored object is mutated in place, so a
    [parse_datetime] failure leaves the assignments made before it. *)
Definition update_event (event_id : string) (req : UpdateEventRequest) (db : store)
    : store * http (Event * list task) :=
  match store_get event_id db with
  | None => (db, HErr 404 "Event not found")
  | Some e0 =>
      let e1 := set_title_desc req e0 in
      match (match up_start_time req with
             | None => Ret e1
             | Some s => d <- parse_datetime s ;; Ret (set_start d e1)
             end) with
      | Raise x => (store_set event_id e1 db, HExc x)
      | Ret e2 =>
      match (match up_end_time req with
             | None => Ret e2
             | Some s => d <- parse_datetime s ;; Ret (set_end d e2)
             end) with
      | Raise x => (store_set event_id e2 db, HExc x)
      | Ret e3 =>
          let e4 := set_rest req e3 in
          (store_set event_id e4 db, HOk (e4, attendee_tasks e4 "update"))
      end
      end
  end.

(** [DELETE /events/{event_id}] *)
Definition delete_event (event_id : string) (db : store) : store * http (val * list task) :=
  match store_get event_id db with
  | None => (db, HErr 404 "Event not found")
  | Some e =>
      (store_del event_id db,
       HOk (VDict [("success", VBool true)], attendee_tasks e "cancellation"))
  end.

(** [POST /events/{event_id}/reminder] with an [EmailNotificationRequest]. *)
Definition send_event_reminder (event_id recipient notification_type : string) (db : store)
    : store * http (val * list task) :=
  match store_get event_id db with
  | None => (db, HErr 404 "Event not found")
  | Some e => (db, HOk (VDict [("success", VBool true)], [(e, recipient, notification_type)]))
  end.

(** [POST /events/{event_id}/sync-google] *)
Definition sync_event_to_google (event_id : string) (db : store) : store * http val :=
  match store_get event_id db with
  | None => (db, HErr 404 "Event not found")
  | Some e =>
      let g := sync_to_google_calendar e in
      if negb (String.eqb g "") then
        (store_set event_id (with_google_id e g) db,
         HOk (VDict [("success", VBool true); ("google_event_id", VStr g)]))
      else (db, HOk (VDict [("success", VBool false);
                            ("message", VStr "Failed to sync with Google Calendar")]))
  end.

(** ** [send_email_notification] *)

(** The four HTML templates; any [notification_type] other than the first
    three takes the cancellation branch ([else:  # cancellation]). *)
Inductive template : Type := TReminder | TInvitation | TUpdate | TCancellation.

Definition email_template (notification_type : string) : template :=
  if String.eqb notification_type "reminder" then TReminder
  else if String.eqb notification_type "invitation" then TInvitation
  else if String.eqb notification_type "update" then TUpdate
  else TCancellation.

Definition email_subject (notification_type : string) (e : Event) : string :=
  match email_template notification_type with
  | TReminder => "Reminder: " ++ ev_title e
  | TInvitation => "Invitation: " ++ ev_title e
  | TUpdate => "Updated: " ++ ev_title e
  | TCancellation => "Cancelled: " ++ ev_title e
  end.

(** The HTML body of a template (the f-strings with [strftime]). *)
Variable render_body : template -> Event -> string.

(** [EMAIL_USER], [EMAIL_PASSWORD] and the SMTP session
    ([starttls], [login], [sendmail], [quit]) sending [from], [to], the
    subject and the body; it raises on any failure. *)
Variable EMAIL_USER EMAIL_PASSWORD : string.
Variable smtp_send : string -> string -> string -> string -> Exc unit.

Definition send_email_notification (e : Event) (recipient notification_type : string) : bool :=
  if String.eqb EMAIL_USER "" || String.eqb EMAIL_PASSWORD "" then false
  else
    let t := email_template notification_type in
    match smtp_send EMAIL_USER recipient (email_subject notification_type e)
            (render_body t e) with
    | Ret _ => true
    | Raise _ => false
    end.
End Events.

Arguments mk_event {datetime}.
Arguments ev_id {datetime} e.
Arguments ev_title {datetime} e.
Arguments ev_description {datetime} e.
Arguments ev_start_time {datetime} e.
Arguments ev_end_time {datetime} e.
Arguments ev_location {datetime} e.
Arguments ev_attendees {datetime} e.
Arguments ev_color {datetime} e.
Arguments ev_created_at {datetime} e.
Arguments ev_reminder_sent {datetime} e.
Arguments ev_google_event_id {datetime} e.
Arguments ev_notify_attendees {datetime} e.
Arguments set_title_desc {datetime} req e.
Arguments set_start {datetime} d e.
Arguments set_end {datetime} d e.
Arguments set_rest {datetime} req e.
Arguments parse_datetime {datetime} fromisoformat strptime dt_str.
Arguments store_get {datetime} k db.
Arguments store_set {datetime} k e db.
Arguments store_del {datetime} k db.
Arguments attendee_tasks {datetime} e kind.
Arguments with_google_id {datetime} e g.
Arguments create_event {datetime} fromisoformat strptime sync_to_google_calendar new_id now req db.
Arguments list_events {datetime} db.
Arguments get_event {datetime} event_id db.
Arguments update_event {datetime} fromisoformat strptime event_id req db.
Arguments delete_event {datetime} event_id db.
Arguments send_event_reminder {datetime} event_id recipient notification_type db.
Arguments sync_event_to_google {datetime} sync_to_google_calendar event_id db.
Arguments email_subject {datetime} notification_type e.
Arguments send_email_notification {datetime} render_body EMAIL_USER EMAIL_PASSWORD smtp_send e
  recipient notification_type.

(** ** Request routing of the MCP server *)

(** A path template segment: a literal, or a [{param}] matching one
    non-empty segment (Starlette's default [str] convertor, [[^/]+]). *)
Inductive seg : Type := Lit (s : string) | Param.

(** The endpoints of [app], FastAPI's documentation routes included. *)
Inductive endpoint : Type :=
| EOpenAPI | EDocs | EDocsRedirect | ERedoc
| EListTools | ECallTool | ECreateEvent | EListEvents | EGetEvent | EUpdateEvent
| EDeleteEvent | EReminder | ESyncGoogle | EImportGoogle | ERoot.

(** [app.routes] in registration order: FastAPI adds its documentation
    routes in [FastAPI.__init__], then the decorators add theirs in the order
    of the module. A path is given as its list of segments
    (["/events/x"] is [["events"; "x"]], ["/"] is [[]]). *)
Definition routes : list (string * list seg * endpoint) :=
  [ ("GET", [Lit "openapi.json"], EOpenAPI);
    ("GET", [Lit "docs"], EDocs);
    ("GET", [Lit "docs"; Lit "oauth2-redirect"], EDocsRedirect);
    ("GET", [Lit "redoc"], ERedoc);
    ("GET", [Lit "mcp"; Lit "tools"], EListTools);
    ("POST", [Lit "mcp"; Lit "call"], ECallTool);
    ("POST", [Lit "events"], ECreateEvent);
    ("GET", [Lit "events"], EListEvents);
    ("GET", [Lit "events"; Param], EGetEvent);
    ("PUT", [Lit "events"; Param], EUpdateEvent);
    ("DELETE", [Lit "events"; Param], EDeleteEvent);
    ("POST", [Lit "events"; Param; Lit "reminder"], EReminder);
    ("POST", [Lit "events"; Param; Lit "sync-google"], ESyncGoogle);
    ("GET", [Lit "events"; Lit "import-google"], EImportGoogle);
    ("GET", [], ERoot) ].

(** The path regex of a route: the captured parameters, or [None]. *)
Fixpoint match_path (pat : list seg) (path : list string) : option (list string) :=
  match pat, path with
  | [], [] => Some []
  | Lit l :: pat', s :: path' => if String.eqb l s then match_path pat' path' else None
  | Param :: pat', s :: path' =>
      if String.eqb s "" then None
      else match match_path pat' path' with
           | Some ps => Some (s :: ps)
           | None => None
           end
  | _, _ => None
  end.

Inductive dispatch_result : Type :=
| Handled (ep : endpoint) (params : list string)
| MethodNotAllowed
| NotFound.

(** The first route whose path and method both match ([Match.FULL]). *)
Fixpoint find_full (method : string) (path : list string)
    (rs : list (string * list seg * endpoint)) : option (endpoint * list string) :=
  match rs with
  | [] => None
  | (m, pat, ep) :: rs' =>
      if String.eqb m method then
        match match_path pat path with
        | Some ps => Some (ep, ps)
        | None => find_full method path rs'
        end
      else find_full method path rs'
  end.

(** Starlette's [Router.app]: a full match is handled at once; otherwise a
    route matching only the path answers 405, and no match at all 404. *)
Definition dispatch (method : string) (path : list string) : dispatch_result :=
  match find_full method path routes with
  | Some (ep, ps) => Handled ep ps
  | None =>
      if existsb (fun r => match match_path (snd (fst r)) path with
                           | Some _ => true | None => false end) routes
      then MethodNotAllowed else NotFound
  end.

(** ** Concrete events and requests *)

Module EventScenario.
(** Times as numbers; [fromisoformat] accepts two instants,
    [strptime] refuses everything. *)
Definition iso (s : string) : Exc nat :=
  if String.eqb s "2025-06-01T10:00:00+00:00" then Ret 10
  else if String.eqb s "2025-06-01T11:00:00+00:00" then Ret 11
  else Raise (ValueError ("Invalid isoformat string: '" ++ s ++ "'")).

Definition strp (s fmt : string) : Exc nat :=
  Raise (ValueError ("time data '" ++ s ++ "' does not match format '" ++ fmt ++ "'")).

(** Google returns an id derived from the event's id. *)
Definition gsync (e : Event nat) : string := "g-" ++ ev_id e.

Definition ev1 : Event nat :=
  mk_event "e1" "Standup" None 10 11 None ["ann@example.org"; "bob@example.org"]
    "#3b82f6" 0 false None true.

Definition ev2 : Event nat :=
  mk_event "e2" "Lunch" None 10 11 None [] "#10b981" 0 false None false.

Definition db1 : store nat := [("e1", ev1); ("e2", ev2)].

Definition req_ok : CreateEventRequest :=
  mk_create "Review" None "2025-06-01T10:00:00Z" "2025-06-01T11:00:00Z" None
    ["cat@example.org"] "#3b82f6" true true.

Definition req_bad_end : CreateEventRequest :=
  mk_create "Review" None "2025-06-01T10:00:00Z" "tomorrow" None [] "#3b82f6" false false.

Definition upd_none : UpdateEventRequest := mk_update None None None None None None None None.

Definition upd_bad_end : UpdateEventRequest :=
  mk_update (Some "Renamed") None None (Some "later") None None None None.

(** A [mcp_calendar_tool] call without [tool_name], and an assistant turn
    whose second call has no id. *)
Definition call_no_name : tool_call :=
  mk_call (Some MCP_TOOL_NAME) [("kwargs", VDict [("title", VStr "Meeting")])] (Some "d").

Definition call_no_id : tool_call := mk_call (Some MCP_TOOL_NAME) [] None.

(** A [mcp_calendar_tool] call whose [kwargs] is a string, not a mapping,
    and flat arguments without a [kwargs] wrapper. *)
Definition call_bad_kwargs : tool_call :=
  mk_call (Some MCP_TOOL_NAME)
    [("tool_name", VStr "create_calendar_event_tool"); ("kwargs", VStr "title=Meeting")]
    (Some "e").


Definition msgs_no_id : list message :=
  [HumanMessage "Plan my week"; AIMessage "" [Scenario.call_a; call_no_id]].

(** A server answering 500 with a long non-JSON body, and one answering
    200 with a body that is not JSON. *)
Definition long_text : string :=
  "Internal Server Error: the calendar backend raised an exception while handling the request".

Definition post_500 (_ : string) (_ : dict) : post_outcome :=
  PostResp 500 long_text (Raise (ValueError "Expecting value: line 1 column 1 (char 0)")).

Definition post_html (_ : string) (_ : dict) : post_outcome :=
  PostResp 200 long_text (Raise (ValueError "Expecting value: line 1 column 1 (char 0)")).
End EventScenario.


(** ** Helper predicates for the statements *)

Open Scope list_scope.

(** A mapping shaped as the single wrapper [{"kwargs": inner}]. *)
Definition single_kwargs_wrapper (m : dict) : Prop :=
  exists inner, m = [("kwargs", VDict inner)].

(** The [tool_call_id]s of the [ToolMessage]s in a list of messages. *)
Fixpoint tool_result_ids (msgs : list message) : list string :=
  match msgs with
  | [] => []
  | ToolMessage _ i :: rest => i :: tool_result_ids rest
  | _ :: rest => tool_result_ids rest
  end.

(** The ids requested by an assistant turn. *)
Definition request_ids (m : message) : list string :=
  flat_map (fun tc => match tc_id tc with Some i => [i] | None => [] end)
    (msg_tool_calls m).


(** Concrete inputs: a [kwargs] wrapper with a sibling key, and a wrapper
    nested twice. *)
Definition wrapper_with_sibling : dict :=
  [("kwargs", VDict [("title", VStr "Meeting")]); ("location", VStr "Room 1")].

Definition nested_wrapper : dict :=
  [("kwargs", VDict [("kwargs", VDict [("title", VStr "Meeting")])])].

(** ** The agent, for every version of the libraries *)

Section AgentTheory.
Context {L : Libraries}.

(** ** Lemmas on normalisation, aliasing and the tool's arguments *)

Lemma normalize_unwraps (m inner : dict) :
  lookup "kwargs" m = Some (VDict inner) -> normalize m = inner.
Proof. unfold normalize. intros ->. reflexivity. Qed.

Lemma normalize_keeps (m : dict) :
  (forall inner, lookup "kwargs" m <> Some (VDict inner)) -> normalize m = m.
Proof.
  unfold normalize. intros H.
  destruct (lookup "kwargs" m) as [v|] eqn:E; [|reflexivity].
  destruct v; try reflexivity. exfalso. exact (H d eq_refl).
Qed.


Lemma map_get_absent (k : string) (m : list (string * string)) (dflt : string) :
  ~ In k (map fst m) -> map_get k m dflt = dflt.
Proof.
  induction m as [|[k' v] m IH]; simpl; intros H; [reflexivity|].
  destruct (String.eqb k k') eqn:E.
  - apply String.eqb_eq in E. subst. exfalso. apply H. left. reflexivity.
  - apply IH. intros Hin. apply H. right. exact Hin.
Qed.

Lemma resolve_unaliased (tn : string) :
  ~ In tn (map fst TOOL_NAME_MAP) -> resolve_tool_id tn = tn.
Proof. apply map_get_absent. Qed.


Lemma tool_output_mcp (post : string -> dict -> post_outcome) (tc : tool_call) :
  tc_name tc = Some MCP_TOOL_NAME ->
  tool_output post tc =
    match invoke_tool post (tc_args tc) with
    | Ret out => out
    | Raise e => failure ("Error executing mcp_calendar_tool: " ++ exc_str e)
    end.
Proof. intros H. unfold tool_output. rewrite H. reflexivity. Qed.


Lemma invoke_invalid (post : string -> dict -> post_outcome) (args : dict) :
  tool_args_valid args = false ->
  invoke_tool post args = Raise (ValidationError (tool_args_error_text args)).
Proof.
  intros H. unfold invoke_tool.
  destruct (lookup "tool_name" args) as [v|]; [|reflexivity].
  destruct v; try reflexivity. rewrite H. reflexivity.
Qed.



(** ** C6: normalisation and idempotence *)

(** C6 (counterexample): a mapping that is not a single-key wrapper is not
    returned unchanged (its sibling key is dropped), and normalising the
    single-key wrapper [{"kwargs": {"kwargs": {...}}}] twice is not the same as
    normalising it once. *)
Lemma C6_counterexample :
  ~ single_kwargs_wrapper wrapper_with_sibling /\
  normalize wrapper_with_sibling <> wrapper_with_sibling /\
  single_kwargs_wrapper nested_wrapper /\
  normalize (normalize nested_wrapper) <> normalize nested_wrapper.
Proof.
  unfold single_kwargs_wrapper. split; [|split; [|split]].
  - intros [inner H]. discriminate H.
  - vm_compute. discriminate.
  - eexists. reflexivity.
  - vm_compute. discriminate.
Qed.

(** C6 (amended): normalising a mapping with no ["kwargs"] key bound to a
    mapping returns it unchanged; a mapping whose ["kwargs"] key is bound to
    a mapping [inner] normalises to [inner] (in particular
    [{"kwargs": inner}] does); and [normalize (normalize x) = normalize x]
    whenever [normalize x] itself has no ["kwargs"] key bound to a mapping. *)
Theorem C6_normalize_amended (m inner x : dict) :
  ((forall i, lookup "kwargs" m <> Some (VDict i)) -> normalize m = m) /\
  (lookup "kwargs" m = Some (VDict inner) -> normalize m = inner) /\
  normalize [("kwargs", VDict inner)] = inner /\
  ((forall i, lookup "kwargs" (normalize x) <> Some (VDict i)) ->
   normalize (normalize x) = normalize x).
Proof.
  split; [|split; [|split]].
  - apply normalize_keeps.
  - apply normalize_unwraps.
  - reflexivity.
  - apply normalize_keeps.
Qed.

Lemma C6_normalize_amended_witness :
  (forall i, lookup "kwargs" [("title", VStr "Meeting")] <> Some (VDict i)) /\
  normalize [("title", VStr "Meeting")] = [("title", VStr "Meeting")] /\
  normalize (normalize wrapper_with_sibling) = normalize wrapper_with_sibling.
Proof.
  assert (Hflat : forall i, lookup "kwargs" [("title", VStr "Meeting")] <> Some (VDict i))
    by (intros i; simpl; discriminate).
  split; [exact Hflat|split].
  - exact (proj1 (C6_normalize_amended [("title", VStr "Meeting")] [] []) Hflat).
  - apply (proj2 (proj2 (proj2 (C6_normalize_amended [] [] wrapper_with_sibling)))).
    intros i. simpl. discriminate.
Defined.

(** ** C9: which wrapper is unwrapped *)

(** C9: whenever the raw mapping has a ["kwargs"] key bound to a mapping
    [inner], the effective arguments are exactly [inner] (sibling keys
    discarded); a single key with any other name is never unwrapped; and the
    unwrapping is one level deep: a ["kwargs"] key inside [inner] stays an
    ordinary argument. *)
Theorem C9_kwargs_unwrap (m inner : dict) (k : string) (v : val) :
  (lookup "kwargs" m = Some (VDict inner) -> normalize m = inner) /\
  (k <> "kwargs" -> normalize [(k, v)] = [(k, v)]) /\
  (normalize [("kwargs", VDict inner)] = inner /\
   lookup "kwargs" (normalize [("kwargs", VDict inner)]) = lookup "kwargs" inner).
Proof.
  split; [|split].
  - apply normalize_unwraps.
  - intros Hk. unfold normalize. cbn [lookup].
    destruct (String.eqb "kwargs" k) eqn:E; [|reflexivity].
    apply String.eqb_eq in E. subst. contradiction.
  - split; reflexivity.
Qed.

Lemma C9_kwargs_unwrap_witness :
  normalize wrapper_with_sibling = [("title", VStr "Meeting")] /\
  normalize [("args", VDict [("title", VStr "Meeting")])] =
    [("args", VDict [("title", VStr "Meeting")])].
Proof.
  split.
  - apply (proj1 (C9_kwargs_unwrap wrapper_with_sibling [("title", VStr "Meeting")]
                    "args" VNone)).
    reflexivity.
  - apply (proj1 (proj2 (C9_kwargs_unwrap [] [] "args" (VDict [("title", VStr "Meeting")])))).
    discriminate.
Defined.

(** ** C10: tool names outside the alias table *)


(** ** Lemmas on the nodes and the graph *)

Lemma last_message_app (msgs : list message) (m : message) :
  last_message (msgs ++ [m]) = Ret m.
Proof. unfold last_message. rewrite rev_app_distr. reflexivity. Qed.

Lemma last_message_raise (msgs : list message) (e : pyexc) :
  last_message msgs = Raise e -> msgs = [] /\ e = IndexError.
Proof.
  unfold last_message. destruct (rev msgs) as [|m r] eqn:E; [|discriminate].
  intros H. injection H as <-. split; [|reflexivity].
  rewrite <- (rev_involutive msgs), E. reflexivity.
Qed.


Lemma exec_calls_length (post : string -> dict -> post_outcome) (calls : list tool_call)
    (ms : list message) :
  exec_calls post calls = Ret ms -> length ms = length calls.
Proof.
  revert ms. induction calls as [|tc calls IH]; simpl; intros ms H.
  - injection H as <-. reflexivity.
  - unfold exec_call in H. destruct (tc_id tc); simpl in H; [|discriminate].
    destruct (exec_calls post calls) as [ms'|e] eqn:E; simpl in H; [|discriminate].
    injection H as <-. simpl. rewrite (IH ms' eq_refl). reflexivity.
Qed.

Lemma exec_calls_raise (post : string -> dict -> post_outcome) (calls : list tool_call)
    (e : pyexc) :
  exec_calls post calls = Raise e ->
  exists tc, In tc calls /\ tc_id tc = None /\ e = ValidationError tool_call_id_error_text.
Proof.
  induction calls as [|tc calls IH]; simpl; intros H; [discriminate|].
  unfold exec_call in H. destruct (tc_id tc) eqn:Eid; simpl in H.
  - destruct (exec_calls post calls) eqn:E; simpl in H; [discriminate|].
    injection H as ->. destruct (IH eq_refl) as [tc' [Hin Hrest]].
    exists tc'. split; [right; exact Hin | exact Hrest].
  - injection H as <-. exists tc. split; [left; reflexivity|]. split; [exact Eid | reflexivity].
Qed.

Lemma exec_calls_missing_id (post : string -> dict -> post_outcome) (calls : list tool_call) :
  (exists tc, In tc calls /\ tc_id tc = None) ->
  exec_calls post calls = Raise (ValidationError tool_call_id_error_text).
Proof.
  intros [tc [Hin Hid]]. induction calls as [|c calls IH]; [destruct Hin|].
  cbn [exec_calls]. unfold exec_call. cbv zeta. destruct Hin as [->|Hin].
  - rewrite Hid. reflexivity.
  - destruct (tc_id c); cbn [bind]; [rewrite (IH Hin); reflexivity|reflexivity].
Qed.

(** What the [agent] node does when the model is available. *)
Lemma agent_step_eq (decide : decision_provider) (post : string -> dict -> post_outcome)
    (msgs : list message) :
  graph_step true decide post Agent msgs =
    match decide msgs with
    | Ret (t, tcs) =>
        Ret (match tcs with [] => END | _ => Action end, msgs ++ [AIMessage t tcs])
    | Raise e => Raise e
    end.
Proof.
  unfold graph_step, run_llm, should_continue, reduce_messages. cbn [negb].
  destruct (decide msgs) as [[t tcs]|e]; cbn [bind fst snd]; [|reflexivity].
  rewrite last_message_app. cbn [bind msg_tool_calls]. destruct tcs; reflexivity.
Qed.

(** What the [action] node does, once the last message is known. *)
Lemma action_step_eq (llm_ok : bool) (decide : decision_provider)
    (post : string -> dict -> post_outcome) (msgs : list message) (t : string)
    (calls : list tool_call) :
  last_message msgs = Ret (AIMessage t calls) ->
  graph_step llm_ok decide post Action msgs =
    match calls with
    | [] => Ret (Agent, msgs ++ msgs)
    | _ => tms <- exec_calls post calls ;; Ret (Agent, msgs ++ (msgs ++ tms))
    end.
Proof.
  intros H. unfold graph_step, execute_tools, reduce_messages. rewrite H. cbn [bind msg_tool_calls].
  destruct calls; [reflexivity|].
  destruct (exec_calls post (t0 :: calls)); reflexivity.
Qed.

Lemma agent_step_cases (llm_ok : bool) (decide : decision_provider)
    (post : string -> dict -> post_outcome) (msgs : list message) (n' : node)
    (msgs' : list message) :
  graph_step llm_ok decide post Agent msgs = Ret (n', msgs') ->
  exists t tcs, msgs' = msgs ++ [AIMessage t tcs] /\
    ((n' = END /\ tcs = []) \/ (n' = Action /\ tcs <> [])) /\
    (llm_ok = true -> decide msgs = Ret (t, tcs)).
Proof.
  unfold graph_step, run_llm, reduce_messages. intros H.
  destruct llm_ok; simpl in H.
  - destruct (decide msgs) as [[t tcs]|e] eqn:Ed; simpl in H; [|discriminate].
    unfold should_continue in H. rewrite last_message_app in H. simpl in H.
    exists t, tcs. destruct tcs as [|tc tcs]; injection H as <- <-.
    + split; [reflexivity|split; [left; split; reflexivity | intros _; reflexivity]].
    + split; [reflexivity|split; [right; split; [reflexivity|discriminate] | intros _; reflexivity]].
  - unfold should_continue in H. rewrite last_message_app in H. simpl in H.
    injection H as <- <-. exists UNAVAILABLE_TEXT, [].
    split; [reflexivity|split; [left; split; reflexivity | discriminate]].
Qed.

Lemma action_step_cases (llm_ok : bool) (decide : decision_provider)
    (post : string -> dict -> post_outcome) (msgs : list message) (n' : node)
    (msgs' : list message) :
  graph_step llm_ok decide post Action msgs = Ret (n', msgs') ->
  n' = Agent /\ exists s, msgs' = msgs ++ s.
Proof.
  unfold graph_step, execute_tools, reduce_messages. intros H.
  destruct (last_message msgs) as [m|e]; cbn [bind] in H; [|discriminate].
  destruct (msg_tool_calls m) as [|tc tcs]; cbn [bind] in H.
  - injection H as <- <-. split; [reflexivity|]. eexists. reflexivity.
  - destruct (exec_calls post (tc :: tcs)); cbn [bind] in H; [|discriminate].
    injection H as <- <-. split; [reflexivity|]. eexists. reflexivity.
Qed.

Lemma graph_step_extends (llm_ok : bool) (decide : decision_provider)
    (post : string -> dict -> post_outcome) (n n' : node) (msgs msgs' : list message) :
  graph_step llm_ok decide post n msgs = Ret (n', msgs') -> exists s, msgs' = msgs ++ s.
Proof.
  intros H. destruct n.
  - destruct (agent_step_cases _ _ _ _ _ _ H) as [t [tcs [-> _]]]. eexists. reflexivity.
  - exact (proj2 (action_step_cases _ _ _ _ _ _ H)).
  - simpl in H. injection H as _ <-. exists []. rewrite app_nil_r. reflexivity.
Qed.

Lemma reachable_extends (llm_ok : bool) (decide : decision_provider)
    (post : string -> dict -> post_outcome) (init : list message) (n : node)
    (msgs : list message) :
  reachable llm_ok decide post init n msgs -> exists s, msgs = init ++ s.
Proof.
  induction 1 as [|n msgs n' msgs' Hr IH Hs].
  - exists []. rewrite app_nil_r. reflexivity.
  - destruct IH as [s1 ->]. destruct (graph_step_extends _ _ _ _ _ _ _ Hs) as [s2 ->].
    exists (s1 ++ s2). rewrite app_assoc. reflexivity.
Qed.

(** ** C3: the nodes only extend the conversation *)

(** C3: every transition of the graph from a reachable configuration keeps
    the prior message sequence as a prefix of the new one (no message is
    changed or removed), and every reachable state extends the seed. *)
Theorem C3_append_only (llm_ok : bool) (decide : decision_provider)
    (post : string -> dict -> post_outcome) (init : list message) (n n' : node)
    (msgs msgs' : list message) :
  reachable llm_ok decide post init n msgs ->
  graph_step llm_ok decide post n msgs = Ret (n', msgs') ->
  (exists s, msgs' = msgs ++ s) /\ (exists s, msgs' = init ++ s).
Proof.
  intros Hr Hs. split.
  - exact (graph_step_extends _ _ _ _ _ _ _ Hs).
  - apply (reachable_extends llm_ok decide post init n').
    exact (reach_step _ _ _ _ _ _ _ _ Hr Hs).
Qed.

(** ** C8: the tool node's return is added onto the stored history *)

(** C8: from a state of [n] messages whose last message is an assistant turn
    with [k] tool calls, the [action] step yields a state of [2n + k]
    messages whose first [2n] are the old history twice. *)
Theorem C8_history_duplicated (llm_ok : bool) (decide : decision_provider)
    (post : string -> dict -> post_outcome) (msgs : list message) (t : string)
    (calls : list tool_call) (n' : node) (msgs' : list message) :
  last_message msgs = Ret (AIMessage t calls) ->
  graph_step llm_ok decide post Action msgs = Ret (n', msgs') ->
  length msgs' = 2 * length msgs + length calls /\
  firstn (2 * length msgs) msgs' = msgs ++ msgs.
Proof.
  intros Hl Hs. rewrite (action_step_eq llm_ok decide post msgs t calls Hl) in Hs.
  assert (Hfirst : forall tms, firstn (2 * length msgs) (msgs ++ msgs ++ tms) = msgs ++ msgs).
  { intros tms. rewrite app_assoc.
    replace (2 * length msgs) with (length (msgs ++ msgs)) by (rewrite length_app; lia).
    rewrite firstn_app, Nat.sub_diag, firstn_all. simpl. apply app_nil_r. }
  destruct calls as [|tc tcs].
  - injection Hs as <- <-. split.
    + rewrite length_app. simpl. lia.
    + rewrite <- (app_nil_r (msgs ++ msgs)) at 1. rewrite <- app_assoc. apply Hfirst.
  - destruct (exec_calls post (tc :: tcs)) as [tms|e] eqn:E; cbn [bind] in Hs; [|discriminate].
    injection Hs as <- <-. split.
    + rewrite !length_app. rewrite (exec_calls_length _ _ _ E). lia.
    + apply Hfirst.
Qed.

(** ** C2: tool results appended after an assistant turn *)

(** C2 (the code's behaviour): in the run where the model requests call [a],
    then call [b], then answers, the [action] step for the second assistant
    turn (one request, id [b]) appends two [ToolMessage]s, with ids [a] and
    [b]: the result for [a] is an orphan, copied from the earlier history. *)
Theorem C2_orphaned_tool_results :
  reachable true Scenario.two_rounds Scenario.server Scenario.seed Action Scenario.s_agent2 /\
  last_message Scenario.s_agent2 = Ret (AIMessage "" [Scenario.call_b]) /\
  request_ids (AIMessage "" [Scenario.call_b]) = ["b"] /\
  graph_step true Scenario.two_rounds Scenario.server Action Scenario.s_agent2 =
    Ret (Agent, Scenario.s_action2) /\
  tool_result_ids (skipn (length Scenario.s_agent2) Scenario.s_action2) = ["a"; "b"].
Proof.
  split; [|split; [reflexivity|split; [reflexivity|split; reflexivity]]].
  apply (reach_step _ _ _ _ Agent Scenario.s_action1); [|reflexivity].
  apply (reach_step _ _ _ _ Action Scenario.s_agent1); [|reflexivity].
  apply (reach_step _ _ _ _ Agent Scenario.seed); [constructor | reflexivity].
Qed.

(** ** C4: unknown tool names *)


(** ** C5: exceptions of the tool are conversation content *)

(** C5: an exception raised while invoking [mcp_calendar_tool] becomes the
    output [{"success": False, "error": "Error executing mcp_calendar_tool:
    <e>"}]; and the only exceptions that leave [execute_tools] are
    [messages[-1]] on an empty conversation and the validation error of a
    [ToolMessage] built for a call without id, never one raised by the
    tool. *)
Theorem C5_handler_errors_caught (post : string -> dict -> post_outcome) (tc : tool_call)
    (e : pyexc) (msgs : list message) (e' : pyexc) :
  (tc_name tc = Some MCP_TOOL_NAME -> invoke_tool post (tc_args tc) = Raise e ->
   tool_output post tc = failure ("Error executing mcp_calendar_tool: " ++ exc_str e)) /\
  (execute_tools post msgs = Raise e' ->
   (msgs = [] /\ e' = IndexError) \/
   exists m c, last_message msgs = Ret m /\ In c (msg_tool_calls m) /\ tc_id c = None /\
     e' = ValidationError tool_call_id_error_text).
Proof.
  split.
  - intros Hn Hr. rewrite (tool_output_mcp post tc Hn), Hr. reflexivity.
  - unfold execute_tools. intros H.
    destruct (last_message msgs) as [m|e0] eqn:El; cbn [bind] in H.
    + right. exists m.
      destruct (msg_tool_calls m) as [|c cs] eqn:Ec; cbn [bind] in H; [discriminate|].
      destruct (exec_calls post (c :: cs)) as [tms|e1] eqn:Ex; cbn [bind] in H; [discriminate|].
      injection H as ->. destruct (exec_calls_raise _ _ _ Ex) as [c' [Hin [Hid He]]].
      exists c'. split; [reflexivity|split; [exact Hin|split; [exact Hid|exact He]]].
    + left. injection H as ->. exact (last_message_raise msgs e' El).
Qed.

(** ** Lemmas on whole runs *)

Lemma graph_run_step (llm_ok : bool) (decide : decision_provider)
    (post : string -> dict -> post_outcome) (b : nat) (n : node) (msgs : list message) :
  n <> END ->
  graph_run llm_ok decide post (S b) n msgs =
    bind (graph_step llm_ok decide post n msgs)
         (fun p => graph_run llm_ok decide post b (fst p) (snd p)).
Proof. intros Hn. destruct n; [reflexivity|reflexivity|contradiction]. Qed.

Lemma graph_run_end (llm_ok : bool) (decide : decision_provider)
    (post : string -> dict -> post_outcome) (b : nat) (msgs r : list message) :
  graph_run llm_ok decide post b END msgs = Ret r -> r = msgs.
Proof. destruct b; cbn; intros H; [discriminate H|injection H as <-; reflexivity]. Qed.

(** A run that returns normally ended at an [agent] step whose turn has no
    tool calls; that turn, produced by the model when [llm_ok], is the last
    message. *)
Lemma graph_run_answer (llm_ok : bool) (decide : decision_provider)
    (post : string -> dict -> post_outcome) (b : nat) (n : node) (msgs r : list message) :
  graph_run llm_ok decide post b n msgs = Ret r -> n <> END ->
  exists h t, r = h ++ [AIMessage t []] /\ (llm_ok = true -> decide h = Ret (t, [])) /\
    exists s, r = msgs ++ s.
Proof.
  revert n msgs. induction b as [|b IH]; intros n msgs H Hn.
  - cbn in H. discriminate H.
  - rewrite (graph_run_step _ _ _ b n msgs Hn) in H.
    destruct (graph_step llm_ok decide post n msgs) as [[n1 m1]|e] eqn:Hs;
      cbn [bind fst snd] in H; [|discriminate].
    destruct (graph_step_extends _ _ _ _ _ _ _ Hs) as [s1 ->].
    destruct n1.
    + destruct (IH _ _ H ltac:(discriminate)) as [h [t [-> [Hd [s2 Hs2]]]]].
      exists h, t. split; [reflexivity|split; [exact Hd|]].
      exists (s1 ++ s2). rewrite app_assoc. exact Hs2.
    + destruct (IH _ _ H ltac:(discriminate)) as [h [t [-> [Hd [s2 Hs2]]]]].
      exists h, t. split; [reflexivity|split; [exact Hd|]].
      exists (s1 ++ s2). rewrite app_assoc. exact Hs2.
    + apply graph_run_end in H. subst r. destruct n.
      * destruct (agent_step_cases _ _ _ _ _ _ Hs) as [t [tcs [Hm [[[_ ->]|[Hc _]] Hd]]]];
          [|discriminate].
        exists msgs, t. split; [exact Hm|split; [exact Hd|]]. exists s1. reflexivity.
      * destruct (action_step_cases _ _ _ _ _ _ Hs) as [Hc _]. discriminate.
      * contradiction.
Qed.

(** How a run with an available model can raise: the step budget runs out,
    the model raises, or a [ToolMessage] is refused for a call without id. *)
Lemma graph_run_raise (decide : decision_provider) (post : string -> dict -> post_outcome)
    (b : nat) (n : node) (msgs : list message) (e : pyexc) :
  graph_run true decide post b n msgs = Raise e -> (n = Action -> msgs <> []) ->
  e = GraphRecursionError recursion_error_text \/ (exists h, decide h = Raise e) \/
  e = ValidationError tool_call_id_error_text.
Proof.
  revert n msgs. induction b as [|b IH]; intros n msgs H Hne.
  - cbn in H. injection H as <-. left. reflexivity.
  - destruct n.
    + rewrite (graph_run_step _ _ _ b Agent msgs ltac:(discriminate)), agent_step_eq in H.
      destruct (decide msgs) as [[t tcs]|e0] eqn:Hd; cbn [bind fst snd] in H.
      * apply (IH _ _ H). intros _. destruct msgs; discriminate.
      * injection H as <-. right. left. exists msgs. exact Hd.
    + rewrite (graph_run_step _ _ _ b Action msgs ltac:(discriminate)) in H.
      unfold graph_step, execute_tools in H.
      destruct (last_message msgs) as [m|e0] eqn:El; cbn [bind] in H.
      * destruct (msg_tool_calls m) as [|c cs]; cbn [bind fst snd] in H.
        -- apply (IH _ _ H). discriminate.
        -- destruct (exec_calls post (c :: cs)) as [tms|e1] eqn:Ex; cbn [bind fst snd] in H.
           ++ apply (IH _ _ H). discriminate.
           ++ injection H as <-. destruct (exec_calls_raise _ _ _ Ex) as [_ [_ [_ He]]].
              right. right. exact He.
      * exfalso. exact (Hne eq_refl (proj1 (last_message_raise msgs e0 El))).
    + cbn in H. discriminate H.
Qed.

(** A model that never answers without tool calls never lets a run return. *)
Lemma graph_run_never_answers (decide : decision_provider)
    (post : string -> dict -> post_outcome) (b : nat) (msgs r : list message) :
  (forall h t', decide h <> Ret (t', [])) -> graph_run true decide post b Agent msgs <> Ret r.
Proof.
  intros Hd Hr.
  destruct (graph_run_answer _ _ _ _ _ _ _ Hr ltac:(discriminate)) as [h [t' [_ [Hh _]]]].
  exact (Hd h t' (Hh eq_refl)).
Qed.

Lemma chat_unfold (decide : decision_provider) (post : string -> dict -> post_outcome)
    (m : string) :
  chat_with_agent true decide post m =
    match graph_run true decide post RECURSION_LIMIT Agent [HumanMessage m] with
    | Ret msgs =>
        match last_message msgs with
        | Ret final => Response (response_text final)
        | Raise e => HTTPError 500 ("AI Agent Error: " ++ exc_str e)
        end
    | Raise e => HTTPError 500 ("AI Agent Error: " ++ exc_str e)
    end.
Proof.
  unfold chat_with_agent, reduce_messages. cbn [negb app].
  destruct (graph_run true decide post RECURSION_LIMIT Agent [HumanMessage m]);
    cbn [bind]; [|reflexivity].
  destruct (last_message a); reflexivity.
Qed.

(** With such a model, [/chat] never gives a normal reply. *)
Lemma chat_no_response (decide : decision_provider) (post : string -> dict -> post_outcome)
    (m t : string) :
  (forall h t', decide h <> Ret (t', [])) -> chat_with_agent true decide post m <> Response t.
Proof.
  intros Hd. rewrite chat_unfold.
  destruct (graph_run true decide post RECURSION_LIMIT Agent [HumanMessage m]) as [r|e] eqn:E.
  - exfalso. exact (graph_run_never_answers _ _ _ _ _ Hd E).
  - discriminate.
Qed.



(** ** C1: termination and the missing iteration cap *)

(** C1 (amended): the code has no iteration cap of its own and no synthetic
    turn. A run returns normally only at a decision whose turn has no tool
    calls, and that model turn is the last message; such a decision ends the
    run at the next tick. With a model that never answers without tool calls,
    no step budget lets the graph return normally and [/chat] never gives a
    normal reply. A run can end otherwise only by an exception: LangGraph's
    recursion error, an exception of the model, or the validation error of a
    [ToolMessage] for a call without id. *)
Theorem C1_no_iteration_cap (decide : decision_provider)
    (post : string -> dict -> post_outcome) (b : nat) (msgs r : list message)
    (m t : string) (e : pyexc) :
  ((forall h t', decide h <> Ret (t', [])) ->
   graph_run true decide post b Agent msgs <> Ret r) /\
  ((forall h t', decide h <> Ret (t', [])) ->
   chat_with_agent true decide post m <> Response t) /\
  (graph_run true decide post b Agent msgs = Raise e ->
   e = GraphRecursionError recursion_error_text \/ (exists h, decide h = Raise e) \/
   e = ValidationError tool_call_id_error_text) /\
  (decide msgs = Ret (t, []) ->
   graph_run true decide post (S (S b)) Agent msgs = Ret (msgs ++ [AIMessage t []])) /\
  (graph_run true decide post b Agent msgs = Ret r ->
   exists h t', r = h ++ [AIMessage t' []] /\ decide h = Ret (t', [])).
Proof.
  split; [|split; [|split; [|split]]].
  - apply graph_run_never_answers.
  - apply chat_no_response.
  - intros H. apply (graph_run_raise _ _ _ _ _ _ H). discriminate.
  - intros Hd. rewrite (graph_run_step _ _ _ (S b) Agent msgs ltac:(discriminate)), agent_step_eq, Hd.
    reflexivity.
  - intros Hr. destruct (graph_run_answer _ _ _ _ _ _ _ Hr ltac:(discriminate))
      as [h [t' [Hr' [Hh _]]]].
    exists h, t'. split; [exact Hr'|exact (Hh eq_refl)].
Qed.

(** ** C7: the replies of [/chat] *)


(** ** The MCP tool *)

Lemma substring_prefix (n : nat) (s : string) :
  String.length (substring 0 n s) = Nat.min n (String.length s) /\
  exists rest, s = (substring 0 n s ++ rest)%string.
Proof.
  revert n. induction s as [|c s IH]; intros n.
  - destruct n; cbn; (split; [reflexivity|exists ""%string; reflexivity]).
  - destruct n as [|n].
    + cbn. split; [reflexivity|exists (String c s); reflexivity].
    + destruct (IH n) as [H1 [rest H2]]. cbn.
      split; [rewrite H1; reflexivity|exists rest; rewrite <- H2; reflexivity].
Qed.

(** [mcp_calendar_tool] turns a [RequestException] of [requests.post] into
    [{"success": False, "error": "Error communicating with MCP Server: ..."}].
    The only exceptions it lets through are the other exceptions of
    [requests.post], and the exceptions of [resp.json()] on a successful
    response that are not [ValueError]s. *)
Theorem mcp_calendar_tool_exceptions (post : string -> dict -> post_outcome)
    (tn : string) (kw : dict) :
  (forall m, post (resolve_tool_id tn) (normalize kw) = PostRaised (RequestException m) ->
     mcp_calendar_tool post tn kw =
       Ret (failure ("Error communicating with MCP Server: " ++ m))) /\
  (forall e, mcp_calendar_tool post tn kw = Raise e ->
     (post (resolve_tool_id tn) (normalize kw) = PostRaised e /\
      forall m, e <> RequestException m) \/
     (exists status text,
        post (resolve_tool_id tn) (normalize kw) = PostResp status text (Raise e) /\
        resp_ok status = true /\ is_value_error e = false)).
Proof.
  unfold mcp_calendar_tool. cbv zeta. split.
  - intros m H. rewrite H. reflexivity.
  - intros e. destruct (post (resolve_tool_id tn) (normalize kw)) as [e'|st tx js].
    + destruct e'; intros H; cbn in H; try discriminate H; injection H as <-;
        (left; split; [reflexivity|intros m' Hm; discriminate Hm]).
    + destruct (resp_ok st) eqn:Eok; cbn [negb]; [|intros H; discriminate H].
      destruct js as [d|e1]; [intros H; discriminate H|].
      destruct (is_value_error e1) eqn:Ev; intros H; [discriminate H|].
      injection H as <-. right. exists st, tx. split; [reflexivity|split; [exact Eok|exact Ev]].
Qed.

(** When the MCP server answers, a status from 400 to 599 becomes
    ["MCP server returned <status>: <body>"]; any other status whose body
    [resp.json()] refuses with a [ValueError] becomes
    ["MCP server returned non-JSON response: <p>"], [p] being [text[:200]]:
    the first [min 200 (len text)] characters of the body; a decoded body is
    returned as it is. *)
Theorem mcp_calendar_tool_http_response (post : string -> dict -> post_outcome)
    (tn : string) (kw : dict) (status : Z) (text : string) (json : Exc val) :
  post (resolve_tool_id tn) (normalize kw) = PostResp status text json ->
  ((400 <= status < 600)%Z ->
   mcp_calendar_tool post tn kw =
     Ret (failure ("MCP server returned " ++ z_to_string status ++ ": " ++ text))) /\
  (~ (400 <= status < 600)%Z -> forall e, json = Raise e -> is_value_error e = true ->
   mcp_calendar_tool post tn kw =
     Ret (failure ("MCP server returned non-JSON response: " ++ substring 0 200 text)) /\
   String.length (substring 0 200 text) = Nat.min 200 (String.length text) /\
   exists rest, text = (substring 0 200 text ++ rest)%string) /\
  (~ (400 <= status < 600)%Z -> forall data, json = Ret data ->
   mcp_calendar_tool post tn kw = Ret data).
Proof.
  intros H. unfold mcp_calendar_tool. cbv zeta. rewrite H. unfold resp_ok.
  assert (Eout : ~ (400 <= status < 600)%Z ->
                 ((400 <=? status) && (status <? 600))%Z = false).
  { intros Hs. destruct (400 <=? status)%Z eqn:E1; destruct (status <? 600)%Z eqn:E2;
      try reflexivity.
    exfalso. apply Hs. apply Z.leb_le in E1. apply Z.ltb_lt in E2. lia. }
  split; [|split].
  - intros Hs. assert (E : ((400 <=? status) && (status <? 600))%Z = true).
    { apply andb_true_intro. split; [apply Z.leb_le|apply Z.ltb_lt]; lia. }
    rewrite E. reflexivity.
  - intros Hs e -> Hv. rewrite (Eout Hs). cbn [negb]. rewrite Hv.
    destruct (substring_prefix 200 text) as [H1 H2].
    split; [reflexivity|split; [exact H1|exact H2]].
  - intros Hs data ->. rewrite (Eout Hs). reflexivity.
Qed.

(** [TOOL_NAME_MAP.get(name, name)] is idempotent, and every name of the
    alias table resolves to a tool the server's [/mcp/call] dispatches to a
    handler (never its ["Unknown tool"] 400). *)
Theorem alias_table_resolves (tn : string) (known_handler : string -> dict -> post_outcome)
    (params : dict) :
  resolve_tool_id (resolve_tool_id tn) = resolve_tool_id tn /\
  (In tn (map fst TOOL_NAME_MAP) ->
   In (resolve_tool_id tn) server_tool_ids /\
   call_tool known_handler (resolve_tool_id tn) params =
     known_handler (resolve_tool_id tn) params).
Proof.
  destruct (in_dec string_dec tn (map fst TOOL_NAME_MAP)) as [Hin|Hout].
  - cbn in Hin.
    repeat (destruct Hin as [<-|Hin];
            [split; [reflexivity|intros _; split; [cbn; auto 6|reflexivity]]|]).
    contradiction.
  - rewrite !(resolve_unaliased tn Hout). split; [reflexivity|intros H; contradiction].
Qed.

(** A [mcp_calendar_tool] call whose arguments the tool's schema refuses (no
    string [tool_name], or a [kwargs] that is neither [None] nor a mapping)
    fails before any request is sent: whatever the network does, its output
    is ["Error executing mcp_calendar_tool: <validation error>"]. *)
Theorem invoke_schema_refused (post : string -> dict -> post_outcome) (tc : tool_call) :
  tc_name tc = Some MCP_TOOL_NAME -> tool_args_valid (tc_args tc) = false ->
  invoke_tool post (tc_args tc) = Raise (ValidationError (tool_args_error_text (tc_args tc))) /\
  tool_output post tc =
    failure ("Error executing mcp_calendar_tool: " ++ tool_args_error_text (tc_args tc)) /\
  (forall post', tool_output post' tc = tool_output post tc).
Proof.
  intros Hn Hv.
  assert (Ho : forall p, tool_output p tc =
                 failure ("Error executing mcp_calendar_tool: " ++ tool_args_error_text (tc_args tc)))
    by (intros p; rewrite (tool_output_mcp p tc Hn), (invoke_invalid p _ Hv); reflexivity).
  split; [apply invoke_invalid; exact Hv|split; [apply Ho|intros p'; rewrite !Ho; reflexivity]].
Qed.


(** ** The graph *)

(** When the model could not be initialised, a run stops after its first
    [agent] step with the fixed unavailability message, whatever the model
    and the network would do. *)
Theorem graph_llm_unavailable (decide : decision_provider)
    (post : string -> dict -> post_outcome) (b : nat) (msgs : list message) :
  graph_run false decide post (S (S b)) Agent msgs =
    Ret (msgs ++ [AIMessage UNAVAILABLE_TEXT []]).
Proof.
  rewrite (graph_run_step _ _ _ (S b) Agent msgs ltac:(discriminate)).
  unfold graph_step, run_llm, reduce_messages. cbn [negb bind].
  unfold should_continue. rewrite last_message_app. reflexivity.
Qed.

(** If one call of an assistant turn has no id, the whole [action] step
    raises pydantic's validation error: no [ToolMessage] of that turn is
    appended, including those of the calls that ran. *)
Theorem action_missing_id_raises (llm_ok : bool) (decide : decision_provider)
    (post : string -> dict -> post_outcome) (msgs : list message) (t : string)
    (calls : list tool_call) :
  last_message msgs = Ret (AIMessage t calls) ->
  (exists tc, In tc calls /\ tc_id tc = None) ->
  graph_step llm_ok decide post Action msgs = Raise (ValidationError tool_call_id_error_text).
Proof.
  intros Hl Hx. rewrite (action_step_eq _ _ _ _ _ _ Hl).
  destruct calls as [|c cs]; [destruct Hx as [tc [[] _]]|].
  rewrite (exec_calls_missing_id post (c :: cs) Hx). reflexivity.
Qed.

End AgentTheory.

(** ** The event store: lemmas *)

Section StoreLemmas.
Variable datetime : Type.

Lemma store_get_set_same (k : string) (e : Event datetime) (db : store datetime) :
  store_get k (store_set k e db) = Some e.
Proof.
  induction db as [|[k' e'] db IH]; simpl.
  - rewrite String.eqb_refl. reflexivity.
  - destruct (String.eqb k k') eqn:E; simpl; rewrite ?E; [reflexivity|exact IH].
Qed.

Lemma store_get_set_other (k k' : string) (e : Event datetime) (db : store datetime) :
  k' <> k -> store_get k' (store_set k e db) = store_get k' db.
Proof.
  intros Hne. induction db as [|[k0 e0] db IH]; simpl.
  - destruct (String.eqb k' k) eqn:E; [apply String.eqb_eq in E; contradiction|reflexivity].
  - destruct (String.eqb k k0) eqn:E; simpl.
    + apply String.eqb_eq in E. subst k0.
      destruct (String.eqb k' k) eqn:E'; [apply String.eqb_eq in E'; contradiction|reflexivity].
    + destruct (String.eqb k' k0); [reflexivity|exact IH].
Qed.

Lemma store_keys_set (k : string) (e : Event datetime) (db : store datetime) :
  map fst (store_set k e db) =
    if existsb (String.eqb k) (map fst db) then map fst db else map fst db ++ [k].
Proof.
  induction db as [|[k' e'] db IH]; simpl; [reflexivity|].
  destruct (String.eqb k k') eqn:E; simpl; [reflexivity|].
  rewrite IH. destruct (existsb (String.eqb k) (map fst db)); reflexivity.
Qed.

Lemma store_get_in (k : string) (db : store datetime) :
  store_get k db <> None <-> In k (map fst db).
Proof.
  induction db as [|[k' e'] db IH]; simpl.
  - split; [intros H; apply H; reflexivity | intros []].
  - destruct (String.eqb k k') eqn:E.
    + apply String.eqb_eq in E. subst. split; [intros _; left; reflexivity|discriminate].
    + rewrite IH. split; [intros H; right; exact H|].
      intros [H|H]; [subst; rewrite String.eqb_refl in E; discriminate|exact H].
Qed.

Lemma existsb_eqb_in (k : string) (l : list string) :
  existsb (String.eqb k) l = true <-> In k l.
Proof.
  rewrite existsb_exists. split.
  - intros [x [Hx He]]. apply String.eqb_eq in He. subst. exact Hx.
  - intros H. exists k. split; [exact H|apply String.eqb_refl].
Qed.

Lemma store_set_fresh (k : string) (e : Event datetime) (db : store datetime) :
  store_get k db = None -> store_set k e db = db ++ [(k, e)].
Proof.
  induction db as [|[k' e'] db IH]; simpl; intros H; [reflexivity|].
  destruct (String.eqb k k'); [discriminate|]. rewrite (IH H). reflexivity.
Qed.

Lemma store_set_existing_keys (k : string) (e : Event datetime) (db : store datetime) :
  store_get k db <> None -> map fst (store_set k e db) = map fst db.
Proof.
  intros H. rewrite store_keys_set.
  apply store_get_in in H. apply existsb_eqb_in in H. rewrite H. reflexivity.
Qed.

Lemma store_set_nodup (k : string) (e : Event datetime) (db : store datetime) :
  NoDup (map fst db) -> NoDup (map fst (store_set k e db)).
Proof.
  intros Hnd. rewrite store_keys_set.
  destruct (existsb (String.eqb k) (map fst db)) eqn:E; [exact Hnd|].
  apply NoDup_app; [exact Hnd|constructor; [intros []|constructor]|].
  intros x Hx [Hkx|[]]. subst x.
  assert (Hin : existsb (String.eqb k) (map fst db) = true)
    by (apply existsb_eqb_in; exact Hx).
  rewrite Hin in E. discriminate.
Qed.

Lemma store_del_keys (k : string) (db : store datetime) :
  NoDup (map fst db) -> map fst (store_del k db) = remove String.string_dec k (map fst db).
Proof.
  induction db as [|[k' e'] db IH]; simpl; intros Hnd; [reflexivity|].
  inversion Hnd as [|? ? Hnin Hnd']; subst.
  destruct (String.eqb k k') eqn:E.
  - apply String.eqb_eq in E. subst k'.
    destruct (String.string_dec k k) as [_|n]; [|contradiction].
    symmetry. apply notin_remove. exact Hnin.
  - destruct (String.string_dec k k') as [Heq|_].
    + subst. rewrite String.eqb_refl in E. discriminate.
    + simpl. rewrite (IH Hnd'). reflexivity.
Qed.

Lemma store_del_nodup (k : string) (db : store datetime) :
  NoDup (map fst db) -> NoDup (map fst (store_del k db)).
Proof.
  intros Hnd. rewrite (store_del_keys k db Hnd).
  induction Hnd as [|x l Hnin Hnd IH]; simpl; [constructor|].
  destruct (String.string_dec k x) as [_|_]; [exact IH|].
  constructor; [|exact IH]. intros Hin. apply Hnin. exact (proj1 (in_remove _ _ _ _ Hin)).
Qed.

Lemma store_get_del_same (k : string) (db : store datetime) :
  NoDup (map fst db) -> store_get k (store_del k db) = None.
Proof.
  intros Hnd. destruct (store_get k (store_del k db)) eqn:E; [|reflexivity].
  exfalso. assert (H : store_get k (store_del k db) <> None) by (rewrite E; discriminate).
  apply store_get_in in H. rewrite (store_del_keys k db Hnd) in H.
  exact (remove_In _ _ _ H).
Qed.

Lemma store_get_del_other (k k' : string) (db : store datetime) :
  k' <> k -> store_get k' (store_del k db) = store_get k' db.
Proof.
  intros Hne. induction db as [|[k0 e0] db IH]; simpl; [reflexivity|].
  destruct (String.eqb k k0) eqn:E; simpl.
  - apply String.eqb_eq in E. subst k0.
    destruct (String.eqb k' k) eqn:E'; [apply String.eqb_eq in E'; contradiction|reflexivity].
  - destruct (String.eqb k' k0); [reflexivity|exact IH].
Qed.
End StoreLemmas.

Section StoreLemmas2.
Variable datetime : Type.

Lemma attendee_tasks_eq (e : Event datetime) (kind : string) :
  attendee_tasks e kind =
    if ev_notify_attendees e then map (fun a => (e, a, kind)) (ev_attendees e) else [].
Proof.
  unfold attendee_tasks. destruct (ev_notify_attendees e), (ev_attendees e); reflexivity.
Qed.

Lemma store_set_get (k : string) (e : Event datetime) (db : store datetime) :
  store_get k db = Some e -> store_set k e db = db.
Proof.
  induction db as [|[k' e'] db IH]; simpl; intros H; [discriminate|].
  destruct (String.eqb k k') eqn:E.
  - injection H as ->. apply String.eqb_eq in E. subst. reflexivity.
  - rewrite (IH H). reflexivity.
Qed.
End StoreLemmas2.

(** ** The event store: properties *)

Section StoreProps.
Variable datetime : Type.
Variable fromisoformat : string -> Exc datetime.
Variable strptime : string -> string -> Exc datetime.
Variable sync : Event datetime -> string.

(** [POST /events] with a fresh id and parseable times appends the new event
    at the end of the store, where [GET /events/{id}] finds it. The event
    carries [google_event_id = g] exactly when a sync was requested and
    Google returned the non-empty id [g], and no Google id otherwise. One
    invitation is queued per attendee, in order, exactly when
    [notify_attendees] is set. *)
Theorem create_event_appends (new_id : string) (now st en : datetime)
    (req : CreateEventRequest) (db : store datetime) :
  store_get new_id db = None ->
  parse_datetime fromisoformat strptime (cr_start_time req) = Ret st ->
  parse_datetime fromisoformat strptime (cr_end_time req) = Ret en ->
  let base := mk_event new_id (cr_title req) (cr_description req) st en (cr_location req)
                (cr_attendees req) (cr_color req) now false None (cr_notify_attendees req) in
  let synced := cr_sync_to_google req && negb (String.eqb (sync base) "") in
  let ev := if synced then with_google_id base (sync base) else base in
  create_event fromisoformat strptime sync new_id now req db =
    (db ++ [(new_id, ev)],
     HOk (ev, if cr_notify_attendees req
              then map (fun a => (ev, a, "invitation")) (cr_attendees req) else [])) /\
  get_event new_id (db ++ [(new_id, ev)]) = HOk ev /\
  list_events (db ++ [(new_id, ev)]) = list_events db ++ [ev] /\
  ev_google_event_id ev = (if synced then Some (sync base) else None) /\
  ev_id ev = new_id /\ ev_start_time ev = st /\ ev_end_time ev = en /\ ev_created_at ev = now.
Proof.
  intros Hfresh Hs He base synced ev.
  assert (Hcode : create_event fromisoformat strptime sync new_id now req db =
                    (store_set new_id ev db, HOk (ev, attendee_tasks ev "invitation"))).
  { unfold create_event. rewrite Hs, He. fold base. unfold ev, synced.
    destruct (cr_sync_to_google req); cbn [andb negb]; [|reflexivity].
    destruct (String.eqb (sync base) ""); reflexivity. }
  assert (Hfields : ev_notify_attendees ev = cr_notify_attendees req /\
                    ev_attendees ev = cr_attendees req /\
                    ev_google_event_id ev = (if synced then Some (sync base) else None) /\
                    ev_id ev = new_id /\ ev_start_time ev = st /\ ev_end_time ev = en /\
                    ev_created_at ev = now)
    by (unfold ev; destruct synced; repeat split).
  destruct Hfields as [Hn [Ha Hrest]].
  rewrite <- (store_set_fresh _ new_id ev db Hfresh).
  split; [|split; [|split; [|exact Hrest]]].
  - rewrite Hcode, attendee_tasks_eq, Hn, Ha. reflexivity.
  - unfold get_event. rewrite store_get_set_same. reflexivity.
  - rewrite (store_set_fresh _ new_id ev db Hfresh). unfold list_events. rewrite map_app.
    reflexivity.
Qed.

(** [POST /events] whose start time does not parse, or whose start time
    parses and end time does not, fails with that parse error and leaves the
    store unchanged; any failure of [POST /events] is such a parse error. *)
Theorem create_event_parse_failure_atomic (new_id : string) (now : datetime)
    (req : CreateEventRequest) (db : store datetime) (x : pyexc) (st : datetime) :
  (parse_datetime fromisoformat strptime (cr_start_time req) = Raise x ->
   create_event fromisoformat strptime sync new_id now req db = (db, HExc x)) /\
  (parse_datetime fromisoformat strptime (cr_start_time req) = Ret st ->
   parse_datetime fromisoformat strptime (cr_end_time req) = Raise x ->
   create_event fromisoformat strptime sync new_id now req db = (db, HExc x)) /\
  (snd (create_event fromisoformat strptime sync new_id now req db) = HExc x ->
   fst (create_event fromisoformat strptime sync new_id now req db) = db /\
   (parse_datetime fromisoformat strptime (cr_start_time req) = Raise x \/
    parse_datetime fromisoformat strptime (cr_end_time req) = Raise x)).
Proof.
  split; [|split].
  - intros Hs. unfold create_event. rewrite Hs. reflexivity.
  - intros Hs He. unfold create_event. rewrite Hs, He. reflexivity.
  - unfold create_event.
    destruct (parse_datetime fromisoformat strptime (cr_start_time req)) as [st'|e1] eqn:Es; cbn.
    + destruct (parse_datetime fromisoformat strptime (cr_end_time req)) as [en|e2] eqn:Ee; cbn.
      * intros H. discriminate H.
      * intros H. injection H as ->. split; [reflexivity|right; reflexivity].
    + intros H. injection H as ->. split; [reflexivity|left; reflexivity].
Qed.

(** Every endpoint that addresses an event by id ([GET], [PUT], [DELETE],
    [/reminder], [/sync-google]) answers 404 ["Event not found"] for an id
    that is not in the store, and leaves the store unchanged. *)
Theorem missing_event_404 (event_id recipient kind : string) (req : UpdateEventRequest)
    (db : store datetime) :
  store_get event_id db = None ->
  get_event event_id db = HErr 404 "Event not found" /\
  update_event fromisoformat strptime event_id req db = (db, HErr 404 "Event not found") /\
  delete_event event_id db = (db, HErr 404 "Event not found") /\
  send_event_reminder event_id recipient kind db = (db, HErr 404 "Event not found") /\
  sync_event_to_google sync event_id db = (db, HErr 404 "Event not found").
Proof.
  intros H. unfold get_event, update_event, delete_event, send_event_reminder,
    sync_event_to_google. rewrite H. repeat split.
Qed.

Lemma update_event_keys (event_id : string) (req : UpdateEventRequest)
    (db : store datetime) :
  map fst (fst (update_event fromisoformat strptime event_id req db)) = map fst db.
Proof.
  unfold update_event. destruct (store_get event_id db) as [e0|] eqn:Eg; [|reflexivity].
  assert (Hin : store_get event_id db <> None) by (rewrite Eg; discriminate).
  destruct (match up_start_time req with
            | Some s => d <- parse_datetime fromisoformat strptime s;; Ret (set_start d _)
            | None => Ret (set_title_desc req e0) end);
    [|apply store_set_existing_keys; exact Hin].
  destruct (match up_end_time req with
            | Some s => d <- parse_datetime fromisoformat strptime s;; Ret (set_end d a)
            | None => Ret a end);
    apply store_set_existing_keys; exact Hin.
Qed.

(** [PUT /events/{id}] never adds or removes an event: whether it succeeds,
    fails on a time that does not parse, or answers 404, the store keeps the
    same ids in the same order. *)
Theorem update_event_keeps_ids (event_id : string) (req : UpdateEventRequest)
    (db : store datetime) :
  map fst (fst (update_event fromisoformat strptime event_id req db)) = map fst db.
Proof. apply update_event_keys. Qed.

(** [PUT /events/{id}] with a request whose fields are all [None] leaves the
    store unchanged and returns the stored event. *)
Theorem update_event_empty_request (event_id : string) (e0 : Event datetime)
    (db : store datetime) :
  store_get event_id db = Some e0 ->
  update_event fromisoformat strptime event_id
    (mk_update None None None None None None None None) db =
  (db, HOk (e0, attendee_tasks e0 "update")).
Proof.
  intros H. unfold update_event. rewrite H. cbn.
  assert (Hid : set_rest (mk_update None None None None None None None None)
                  (set_title_desc (mk_update None None None None None None None None) e0) = e0)
    by (destruct e0; reflexivity).
  rewrite Hid, (store_set_get _ event_id e0 db H). reflexivity.
Qed.

(** [PUT /events/{id}] is not atomic: when the new [end_time] does not parse
    (and no [start_time] is given), the request fails with that error but the
    stored event already carries the new title and description. *)
Theorem update_event_partial_on_failure (event_id s : string) (e0 : Event datetime)
    (req : UpdateEventRequest) (db : store datetime) (x : pyexc) :
  store_get event_id db = Some e0 ->
  up_start_time req = None -> up_end_time req = Some s ->
  parse_datetime fromisoformat strptime s = Raise x ->
  update_event fromisoformat strptime event_id req db =
    (store_set event_id (set_title_desc req e0) db, HExc x) /\
  store_get event_id (store_set event_id (set_title_desc req e0) db) =
    Some (set_title_desc req e0) /\
  ev_title (set_title_desc req e0) = match up_title req with Some t => t | None => ev_title e0 end /\
  ev_end_time (set_title_desc req e0) = ev_end_time e0.
Proof.
  intros H Hs He Hp. unfold update_event. rewrite H, Hs, He. cbn [bind]. rewrite Hp.
  split; [reflexivity|split; [apply store_get_set_same|split; reflexivity]].
Qed.

(** [DELETE /events/{id}] of a stored event (ids unique) removes exactly that
    event: a later [GET] answers 404, every other id is found as before, and
    one cancellation is queued per attendee exactly when [notify_attendees]
    is set. *)
Theorem delete_event_removes (event_id : string) (e : Event datetime) (db : store datetime) :
  NoDup (map fst db) -> store_get event_id db = Some e ->
  delete_event event_id db =
    (store_del event_id db,
     HOk (VDict [("success", VBool true)],
          if ev_notify_attendees e
          then map (fun a => (e, a, "cancellation")) (ev_attendees e) else [])) /\
  get_event event_id (store_del event_id db) = HErr 404 "Event not found" /\
  (forall k, k <> event_id -> store_get k (store_del event_id db) = store_get k db).
Proof.
  intros Hnd H. split; [|split].
  - unfold delete_event. rewrite H, attendee_tasks_eq. reflexivity.
  - unfold get_event. rewrite (store_get_del_same _ event_id db Hnd). reflexivity.
  - intros k Hk. apply store_get_del_other. exact Hk.
Qed.

(** [POST /events/{id}/sync-google] of a stored event: when Google returns a
    non-empty id, only that event's [google_event_id] changes and the reply
    is a success with the id; when it returns [""], the store is unchanged
    and the reply is [success: False]. *)
Theorem sync_event_to_google_result (event_id : string) (e : Event datetime)
    (db : store datetime) :
  store_get event_id db = Some e ->
  (sync e <> "" ->
   sync_event_to_google sync event_id db =
     (store_set event_id (with_google_id e (sync e)) db,
      HOk (VDict [("success", VBool true); ("google_event_id", VStr (sync e))])) /\
   get_event event_id (store_set event_id (with_google_id e (sync e)) db) =
     HOk (with_google_id e (sync e)) /\
   map fst (store_set event_id (with_google_id e (sync e)) db) = map fst db) /\
  (sync e = "" ->
   sync_event_to_google sync event_id db =
     (db, HOk (VDict [("success", VBool false);
                      ("message", VStr "Failed to sync with Google Calendar")]))).
Proof.
  intros H. split.
  - intros Hne. split; [|split].
    + unfold sync_event_to_google. rewrite H.
      destruct (String.eqb (sync e) "") eqn:E; [apply String.eqb_eq in E; contradiction|].
      reflexivity.
    + unfold get_event. rewrite store_get_set_same. reflexivity.
    + apply store_set_existing_keys. rewrite H. discriminate.
  - intros Hz. unfold sync_event_to_google. rewrite H, Hz. reflexivity.
Qed.
End StoreProps.

(** ** Reminders and e-mail *)

Section EmailProps.
Variable datetime : Type.
Variable render_body : template -> Event datetime -> string.

(** [POST /events/{id}/reminder] of a stored event queues exactly one e-mail
    of the requested type and leaves the store unchanged; a type other than
    ["reminder"], ["invitation"] and ["update"] is rendered with the
    cancellation template, subject ["Cancelled: <title>"]. *)
Theorem reminder_unknown_type_cancels (event_id recipient kind : string)
    (e : Event datetime) (db : store datetime) :
  store_get event_id db = Some e ->
  send_event_reminder event_id recipient kind db =
    (db, HOk (VDict [("success", VBool true)], [(e, recipient, kind)])) /\
  (kind <> "reminder" -> kind <> "invitation" -> kind <> "update" ->
   email_template kind = TCancellation /\ email_subject kind e = ("Cancelled: " ++ ev_title e)%string).
Proof.
  intros H. split.
  - unfold send_event_reminder. rewrite H. reflexivity.
  - intros H1 H2 H3. unfold email_subject, email_template.
    destruct (String.eqb kind "reminder") eqn:E1; [apply String.eqb_eq in E1; contradiction|].
    destruct (String.eqb kind "invitation") eqn:E2; [apply String.eqb_eq in E2; contradiction|].
    destruct (String.eqb kind "update") eqn:E3; [apply String.eqb_eq in E3; contradiction|].
    split; reflexivity.
Qed.

(** [send_email_notification] returns [False] without any SMTP exchange when
    [EMAIL_USER] or [EMAIL_PASSWORD] is empty; otherwise it returns [True]
    exactly when the SMTP session delivers the message with the type's
    subject and template. *)
Theorem send_email_notification_result (user password recipient kind : string)
    (smtp : string -> string -> string -> string -> Exc unit) (e : Event datetime) :
  ((user = "" \/ password = "") ->
   send_email_notification render_body user password smtp e recipient kind = false) /\
  (user <> "" -> password <> "" ->
   (send_email_notification render_body user password smtp e recipient kind = true <->
    smtp user recipient (email_subject kind e) (render_body (email_template kind) e) = Ret tt)).
Proof.
  split.
  - intros [->| ->]; unfold send_email_notification; cbn;
      [reflexivity|rewrite orb_true_r; reflexivity].
  - intros Hu Hp. unfold send_email_notification.
    destruct (String.eqb user "") eqn:Eu; [apply String.eqb_eq in Eu; contradiction|].
    destruct (String.eqb password "") eqn:Ep; [apply String.eqb_eq in Ep; contradiction|].
    cbn [orb].
    destruct (smtp user recipient (email_subject kind e) (render_body (email_template kind) e))
      as [[]|x]; split; intros H; try reflexivity; discriminate.
Qed.
End EmailProps.

Lemma find_full_app (method : string) (path : list string)
    (l1 l2 : list (string * list seg * endpoint)) :
  find_full method path (l1 ++ l2) =
    match find_full method path l1 with
    | Some r => Some r
    | None => find_full method path l2
    end.
Proof.
  induction l1 as [|[[m pat] ep] l1 IH]; cbn; [reflexivity|].
  destruct (String.eqb m method); [destruct (match_path pat path)|]; auto.
Qed.
Lemma find_full_in (method : string) (path : list string)
    (rs : list (string * list seg * endpoint)) (ep : endpoint) (ps : list string) :
  find_full method path rs = Some (ep, ps) -> In ep (map snd rs).
Proof.
  induction rs as [|[[m pat] ep'] rs IH]; cbn; [discriminate|].
  destruct (String.eqb m method); [destruct (match_path pat path)|].
  - intros H. injection H as -> _. left. reflexivity.
  - intros H. right. exact (IH H).
  - intros H. right. exact (IH H).
Qed.
Lemma match_path_lits (a b : string) (path ps : list string) :
  match_path [Lit a; Lit b] path = Some ps -> path = [a; b].
Proof.
  destruct path as [|x [|y [|z path]]]; cbn; try discriminate;
    destruct (String.eqb a x) eqn:E1; try discriminate;
    destruct (String.eqb b y) eqn:E2; try discriminate.
  intros _. apply String.eqb_eq in E1, E2. subst. reflexivity.
Qed.
(** No request ever reaches [import_google_events]: [GET
    /events/import-google] is taken by the earlier route
    [GET /events/{event_id}], and answers 404 ["Event not found"] unless an
    event has the id ["import-google"]. *)
Theorem import_google_unreachable :
  (forall method path ps, dispatch method path <> Handled EImportGoogle ps) /\
  dispatch "GET" ["events"; "import-google"] = Handled EGetEvent ["import-google"] /\
  (forall (datetime : Type) (db : store datetime),
     store_get "import-google" db = None ->
     get_event "import-google" db = HErr 404 "Event not found").
Proof.
  split; [|split; [reflexivity|]].
  - intros method path ps. unfold dispatch.
    destruct (find_full method path routes) as [[ep ps']|] eqn:E;
      [|destruct (existsb _ routes); discriminate].
    intros H. injection H as -> ->.
    assert (Hr : routes = firstn 13 routes ++
                   (("GET", [Lit "events"; Lit "import-google"], EImportGoogle) ::
                    skipn 14 routes)) by reflexivity.
    rewrite Hr, find_full_app in E.
    destruct (find_full method path (firstn 13 routes)) as [[ep0 ps0]|] eqn:E0.
    + injection E as -> _. apply find_full_in in E0. cbn in E0.
      repeat (destruct E0 as [E0|E0]; [discriminate E0|]). exact E0.
    + cbn [find_full] in E.
      destruct (String.eqb "GET" method) eqn:Em;
        [destruct (match_path [Lit "events"; Lit "import-google"] path) as [ps1|] eqn:Ep|].
      * apply String.eqb_eq in Em. subst method.
        apply match_path_lits in Ep. subst path. discriminate E0.
      * apply find_full_in in E. cbn in E. destruct E as [E|[]]. discriminate E.
      * apply find_full_in in E. cbn in E. destruct E as [E|[]]. discriminate E.
  - intros datetime db H. unfold get_event. rewrite H. reflexivity.
Qed.

(** ** Concrete runs *)

(** The refutations below quantify over the libraries; the concrete runs use
    the sample instance. *)

(** C1 (counterexample): with a model that requests a tool on every turn, no
    version of the libraries and no step budget lets the run end with an
    assistant turn, and [/chat] never gives a normal reply. *)
Lemma C1_counterexample :
  (forall (L : Libraries) (b : nat) (r : list message),
     @graph_run L true Scenario.always_tools Scenario.server b Agent Scenario.seed <> Ret r) /\
  (forall (L : Libraries) (t : string),
     @chat_with_agent L true Scenario.always_tools Scenario.server "Schedule a meeting" <>
       Response t).
Proof.
  assert (Hd : forall h t', Scenario.always_tools h <> Ret (t', [])) by (intros h t'; discriminate).
  split.
  - intros L b r. exact (@graph_run_never_answers L _ _ b _ r Hd).
  - intros L t. exact (@chat_no_response L _ _ _ t Hd).
Qed.


#[local] Existing Instance Scenario.libs.


(** ** Witnesses on concrete conversations *)


Lemma C3_append_only_witness :
  reachable true Scenario.two_rounds Scenario.server Scenario.seed Action Scenario.s_agent1 /\
  graph_step true Scenario.two_rounds Scenario.server Action Scenario.s_agent1 =
    Ret (Agent, Scenario.s_action1) /\
  exists s, Scenario.s_action1 = Scenario.s_agent1 ++ s.
Proof.
  assert (H1 : reachable true Scenario.two_rounds Scenario.server Scenario.seed Action
                 Scenario.s_agent1).
  { apply (reach_step _ _ _ _ Agent Scenario.seed); [constructor | reflexivity]. }
  assert (H2 : graph_step true Scenario.two_rounds Scenario.server Action Scenario.s_agent1 =
                 Ret (Agent, Scenario.s_action1)) by reflexivity.
  split; [exact H1|split; [exact H2|]].
  exact (proj1 (C3_append_only _ _ _ _ _ _ _ _ H1 H2)).
Defined.

Lemma C8_history_duplicated_witness :
  last_message Scenario.s_agent2 = Ret (AIMessage "" [Scenario.call_b]) /\
  length Scenario.s_action2 = 2 * length Scenario.s_agent2 + 1.
Proof.
  assert (Hl : last_message Scenario.s_agent2 = Ret (AIMessage "" [Scenario.call_b]))
    by reflexivity.
  split; [exact Hl|].
  exact (proj1 (C8_history_duplicated true Scenario.two_rounds Scenario.server
                  Scenario.s_agent2 "" [Scenario.call_b] Agent Scenario.s_action2
                  Hl eq_refl)).
Defined.


Lemma C5_handler_errors_caught_witness :
  invoke_tool Scenario.broken_post (tc_args Scenario.call_a) =
    Raise (OtherError "Object of type bytes is not JSON serializable") /\
  tool_output Scenario.broken_post Scenario.call_a =
    failure "Error executing mcp_calendar_tool: Object of type bytes is not JSON serializable".
Proof.
  assert (H : invoke_tool Scenario.broken_post (tc_args Scenario.call_a) =
                Raise (OtherError "Object of type bytes is not JSON serializable"))
    by reflexivity.
  split; [exact H|].
  exact (proj1 (C5_handler_errors_caught Scenario.broken_post Scenario.call_a _ [] IndexError)
           eq_refl H).
Defined.

Lemma C1_no_iteration_cap_witness :
  (forall h t', Scenario.always_tools h <> Ret (t', [])) /\
  chat_with_agent true Scenario.always_tools Scenario.server "Schedule a meeting" <>
    Response "" /\
  graph_run true Scenario.two_rounds Scenario.server 3 Agent Scenario.s_action2 =
    Ret (Scenario.s_action2 ++ [AIMessage "Scheduled." []]).
Proof.
  assert (Hd : forall h t', Scenario.always_tools h <> Ret (t', [])) by (intros h t'; discriminate).
  split; [exact Hd|split].
  - exact (proj1 (proj2 (C1_no_iteration_cap Scenario.always_tools Scenario.server 0 [] []
                           "Schedule a meeting" "" IndexError)) Hd).
  - exact (proj1 (proj2 (proj2 (proj2 (C1_no_iteration_cap Scenario.two_rounds Scenario.server
                                         1 Scenario.s_action2 [] "" "Scheduled." IndexError))))
             eq_refl).
Defined.


Lemma mcp_calendar_tool_http_response_witness :
  mcp_calendar_tool EventScenario.post_html "create_calendar_event_tool" [] =
    Ret (failure ("MCP server returned non-JSON response: " ++ EventScenario.long_text)).
Proof.
  assert (H : EventScenario.post_html (resolve_tool_id "create_calendar_event_tool") (normalize []) =
              PostResp 200 EventScenario.long_text
                (Raise (ValueError "Expecting value: line 1 column 1 (char 0)"))) by reflexivity.
  exact (proj1 (proj1 (proj2 (mcp_calendar_tool_http_response EventScenario.post_html
                                "create_calendar_event_tool" [] 200 EventScenario.long_text _ H))
                  ltac:(lia) _ eq_refl eq_refl)).
Defined.

Lemma invoke_schema_refused_witness :
  tool_output Scenario.server EventScenario.call_bad_kwargs =
    failure ("Error executing mcp_calendar_tool: " ++
             tool_args_error_text (tc_args EventScenario.call_bad_kwargs)).
Proof.
  exact (proj1 (proj2 (invoke_schema_refused Scenario.server EventScenario.call_bad_kwargs
                         eq_refl eq_refl))).
Defined.


Lemma action_missing_id_raises_witness :
  graph_step true Scenario.two_rounds Scenario.server Action EventScenario.msgs_no_id =
    Raise (ValidationError tool_call_id_error_text).
Proof.
  assert (H1 : last_message EventScenario.msgs_no_id =
               Ret (AIMessage "" [Scenario.call_a; EventScenario.call_no_id])) by reflexivity.
  assert (H2 : exists tc, In tc [Scenario.call_a; EventScenario.call_no_id] /\ tc_id tc = None)
    by (exists EventScenario.call_no_id; split; [right; left; reflexivity|reflexivity]).
  exact (action_missing_id_raises true Scenario.two_rounds Scenario.server
           EventScenario.msgs_no_id "" _ H1 H2).
Defined.

(** ** Witnesses on concrete stores *)

Lemma create_event_appends_witness :
  exists ev, create_event EventScenario.iso EventScenario.strp EventScenario.gsync "e3" 0
                EventScenario.req_ok EventScenario.db1 =
    (EventScenario.db1 ++ [("e3", ev)], HOk (ev, [(ev, "cat@example.org", "invitation")])) /\
    ev_google_event_id ev = Some "g-e3".
Proof.
  pose proof (create_event_appends nat EventScenario.iso EventScenario.strp EventScenario.gsync
                "e3" 0 10 11 EventScenario.req_ok EventScenario.db1 eq_refl eq_refl eq_refl)
    as H.
  cbv zeta in H. destruct H as [H1 [_ [_ [H4 _]]]].
  eexists. split; [exact H1|exact H4].
Defined.

Lemma create_event_parse_failure_atomic_witness :
  create_event EventScenario.iso EventScenario.strp EventScenario.gsync "e3" 0
    EventScenario.req_bad_end EventScenario.db1 =
  (EventScenario.db1,
   HExc (ValueError "time data 'tomorrow' does not match format '%Y-%m-%d %H:%M:%S'")).
Proof.
  exact (proj1 (proj2 (create_event_parse_failure_atomic nat EventScenario.iso
                         EventScenario.strp EventScenario.gsync "e3" 0 EventScenario.req_bad_end
                         EventScenario.db1 _ 10)) eq_refl eq_refl).
Defined.

Lemma missing_event_404_witness :
  update_event EventScenario.iso EventScenario.strp "e9" EventScenario.upd_bad_end
    EventScenario.db1 = (EventScenario.db1, HErr 404 "Event not found").
Proof.
  assert (H : store_get "e9" EventScenario.db1 = None) by reflexivity.
  exact (proj1 (proj2 (missing_event_404 nat EventScenario.iso EventScenario.strp
                         EventScenario.gsync "e9" "ann@example.org" "reminder"
                         EventScenario.upd_bad_end EventScenario.db1 H))).
Defined.

Lemma update_event_empty_request_witness :
  update_event EventScenario.iso EventScenario.strp "e1" EventScenario.upd_none
    EventScenario.db1 =
  (EventScenario.db1, HOk (EventScenario.ev1, attendee_tasks EventScenario.ev1 "update")).
Proof.
  assert (H : store_get "e1" EventScenario.db1 = Some EventScenario.ev1) by reflexivity.
  exact (update_event_empty_request nat EventScenario.iso EventScenario.strp "e1"
           EventScenario.ev1 EventScenario.db1 H).
Defined.

Lemma update_event_partial_on_failure_witness :
  update_event EventScenario.iso EventScenario.strp "e1" EventScenario.upd_bad_end
    EventScenario.db1 =
  (store_set "e1" (set_title_desc EventScenario.upd_bad_end EventScenario.ev1) EventScenario.db1,
   HExc (ValueError "time data 'later' does not match format '%Y-%m-%d %H:%M:%S'")).
Proof.
  assert (H1 : store_get "e1" EventScenario.db1 = Some EventScenario.ev1) by reflexivity.
  assert (H2 : up_start_time EventScenario.upd_bad_end = None) by reflexivity.
  assert (H3 : up_end_time EventScenario.upd_bad_end = Some "later") by reflexivity.
  assert (H4 : parse_datetime EventScenario.iso EventScenario.strp "later" =
               Raise (ValueError "time data 'later' does not match format '%Y-%m-%d %H:%M:%S'"))
    by reflexivity.
  exact (proj1 (update_event_partial_on_failure nat EventScenario.iso EventScenario.strp
                  "e1" "later" EventScenario.ev1 EventScenario.upd_bad_end EventScenario.db1 _
                  H1 H2 H3 H4)).
Defined.

Lemma delete_event_removes_witness :
  get_event "e1" (store_del "e1" EventScenario.db1) = HErr 404 "Event not found".
Proof.
  assert (H1 : NoDup (map fst EventScenario.db1))
    by (cbn; repeat constructor; cbn; intuition discriminate).
  assert (H2 : store_get "e1" EventScenario.db1 = Some EventScenario.ev1) by reflexivity.
  exact (proj1 (proj2 (delete_event_removes nat "e1" EventScenario.ev1 EventScenario.db1 H1 H2))).
Defined.

Lemma sync_event_to_google_result_witness :
  sync_event_to_google EventScenario.gsync "e1" EventScenario.db1 =
    (store_set "e1" (with_google_id EventScenario.ev1 "g-e1") EventScenario.db1,
     HOk (VDict [("success", VBool true); ("google_event_id", VStr "g-e1")])).
Proof.
  assert (H1 : store_get "e1" EventScenario.db1 = Some EventScenario.ev1) by reflexivity.
  assert (H2 : EventScenario.gsync EventScenario.ev1 <> "") by discriminate.
  exact (proj1 (proj1 (sync_event_to_google_result nat EventScenario.gsync "e1"
                         EventScenario.ev1 EventScenario.db1 H1) H2)).
Defined.

Lemma reminder_unknown_type_cancels_witness :
  email_subject "follow-up" EventScenario.ev1 = "Cancelled: Standup".
Proof.
  assert (H : store_get "e1" EventScenario.db1 = Some EventScenario.ev1) by reflexivity.
  exact (proj2 (proj2 (reminder_unknown_type_cancels nat "e1" "ann@example.org" "follow-up"
                         EventScenario.ev1 EventScenario.db1 H)
                  ltac:(discriminate) ltac:(discriminate) ltac:(discriminate))).
Defined.
